(** * One-period binomial option pricing: validation, pricing, chart series

    A shallow embedding of the pricing core of the calculator
    ([src/App.jsx]; the second source file carries the same functions with
    other message texts): [safeParseFloat], [computeOnePeriod],
    [validateInputs], the memoised [calc] and the three chart series
    [assetData], [callData], [putData].

    Numbers.  A JavaScript number is an IEEE-754 binary64 value.  The model
    keeps every special value of that format (NaN, the two infinities, the
    two zeros) and the rules by which the operators treat them, and takes
    the arithmetic of finite values to be exact: a finite result is the
    rational number the operator denotes, with no rounding, overflow or
    underflow.  Comparisons, [!x] and [Math.max] are not affected by that
    idealisation; the arithmetic operators are: on finite operands [+], [-],
    [*] and [/] of the source round their result and can overflow to an
    infinity, those of the model do neither.  The operators of the model
    are tested against the binary64 operators of the prover on a grid of
    values, and [computeOnePeriod64] is the pricer on binary64 numbers.

    Consequence for the statements.  What is said of [validateInputs], of
    [calc], of the series and of what is rendered rests on comparisons and
    holds of the source as it runs.  What is said of the numbers the pricer
    returns is of two kinds: statements on signs, order and special values,
    which rounding and overflow preserve, and one equation, put-call parity,
    which is a statement over the rationals and is marked as such; in
    binary64 it holds neither exactly nor within a tolerance on every
    accepted input ([put_call_parity_in_binary64]).

    Objects.  The error object is a finite map from key to message, and
    [Object.keys(errors).length] is its size; [null] is [None]. *)

From Stdlib Require Import QArith Qround Lqa Lia Bool Ascii.
From Stdlib Require Import Uint63 PrimFloat SpecFloat FloatOps.
From stdpp Require Import gmap strings.

Local Open Scope Q_scope.

(** ** JavaScript numbers *)

Module JS.

(** [Fin z q] is the finite value [q]; the flag [z] tells the two zeros
    apart ([Fin true 0] is [-0]) and carries no information when [q] is
    not zero. *)
Inductive number : Type :=
| NaN
| Inf (neg : bool)
| Fin (z : bool) (q : Q).

Definition num (q : Q) : number := Fin false q.

Definition isNaN (x : number) : bool :=
  match x with NaN => true | _ => false end.

(** [Number.isFinite] *)
Definition isFinite (x : number) : bool :=
  match x with Fin _ _ => true | _ => false end.

Definition isZero (x : number) : bool :=
  match x with Fin _ q => Qeq_bool q 0 | _ => false end.

Definition Qlt_bool (a b : Q) : bool := negb (Qle_bool b a).

(** The sign bit. *)
Definition sign (x : number) : bool :=
  match x with
  | NaN => false
  | Inf s => s
  | Fin z q => if Qeq_bool q 0 then z else Qlt_bool q 0
  end.

(** Unary minus. *)
Definition neg (x : number) : number :=
  match x with
  | NaN => NaN
  | Inf s => Inf (negb s)
  | Fin z q => Fin (negb (sign x)) (- q)
  end.

(** [a + b]: opposite infinities give NaN; a zero sum is [-0] only when
    both operands are [-0].  On finite operands the sum is the exact
    rational one: the rounding and the overflow of binary64 are left out. *)
Definition add (a b : number) : number :=
  match a, b with
  | NaN, _ | _, NaN => NaN
  | Inf s, Inf t => if eqb s t then Inf s else NaN
  | Inf s, Fin _ _ => Inf s
  | Fin _ _, Inf t => Inf t
  | Fin _ q1, Fin _ q2 =>
      Fin (isZero a && sign a && isZero b && sign b) (q1 + q2)
  end.

(** [a - b]; exact on finite operands, as [add] is. *)
Definition sub (a b : number) : number := add a (neg b).

(** [a * b]: infinity times zero is NaN; the sign is the exclusive or of
    the signs.  On finite operands the product is the exact rational one,
    with no rounding, overflow or underflow. *)
Definition mul (a b : number) : number :=
  match a, b with
  | NaN, _ | _, NaN => NaN
  | Inf s, Inf t => Inf (xorb s t)
  | Inf s, Fin _ _ => if isZero b then NaN else Inf (xorb s (sign b))
  | Fin _ _, Inf t => if isZero a then NaN else Inf (xorb (sign a) t)
  | Fin _ q1, Fin _ q2 => Fin (xorb (sign a) (sign b)) (q1 * q2)
  end.

(** [a / b]: zero over zero and infinity over infinity are NaN; a non-zero
    value over a zero is an infinity.  On finite operands with a non-zero
    divisor the quotient is the exact rational one, with no rounding,
    overflow or underflow. *)
Definition div (a b : number) : number :=
  match a, b with
  | NaN, _ | _, NaN => NaN
  | Inf _, Inf _ => NaN
  | Inf s, Fin _ _ => Inf (xorb s (sign b))
  | Fin _ _, Inf t => Fin (xorb (sign a) t) 0
  | Fin _ q1, Fin _ q2 =>
      if isZero b
      then (if isZero a then NaN else Inf (xorb (sign a) (sign b)))
      else Fin (xorb (sign a) (sign b)) (q1 / q2)
  end.

(** [a < b]: false as soon as an operand is NaN; the zeros are equal. *)
Definition lt (a b : number) : bool :=
  match a, b with
  | NaN, _ | _, NaN => false
  | Inf s, Inf t => s && negb t
  | Inf s, Fin _ _ => s
  | Fin _ _, Inf t => negb t
  | Fin _ q1, Fin _ q2 => Qlt_bool q1 q2
  end.

(** [a <= b] *)
Definition le (a b : number) : bool :=
  match a, b with
  | NaN, _ | _, NaN => false
  | Inf s, Inf t => s || negb t
  | Inf s, Fin _ _ => s
  | Fin _ _, Inf t => negb t
  | Fin _ q1, Fin _ q2 => Qle_bool q1 q2
  end.

(** [a > b] and [a >= b] *)
Definition gt (a b : number) : bool := lt b a.
Definition ge (a b : number) : bool := le b a.

(** [a == b] on numbers: NaN equals nothing, the zeros are equal. *)
Definition eq (a b : number) : bool :=
  match a, b with
  | NaN, _ | _, NaN => false
  | Inf s, Inf t => eqb s t
  | Fin _ q1, Fin _ q2 => Qeq_bool q1 q2
  | _, _ => false
  end.

(** Truthiness of a number, as tested by [!x] and [x && ...]: NaN and the
    zeros are falsy. *)
Definition truthy (x : number) : bool :=
  match x with
  | NaN => false
  | Inf _ => true
  | Fin _ _ => negb (isZero x)
  end.

(** [Math.max(a, b)]: NaN when an argument is NaN; [+0] is larger than
    [-0]. *)
Definition max (a b : number) : number :=
  if isNaN a || isNaN b then NaN
  else if lt a b then b
  else if lt b a then a
  else if sign a then b else a.

End JS.

Abbreviation number := JS.number.
Abbreviation NaN := JS.NaN.
Abbreviation Inf := JS.Inf.
Abbreviation Fin := JS.Fin.
Abbreviation num := JS.num.
Abbreviation isNaN := JS.isNaN.
Abbreviation isFinite := JS.isFinite.
Abbreviation isZero := JS.isZero.
Abbreviation truthy := JS.truthy.
Abbreviation Math_max := JS.max.

Declare Scope js_scope.
Delimit Scope js_scope with js.
Bind Scope js_scope with JS.number.
Infix "+" := JS.add : js_scope.
Infix "-" := JS.sub : js_scope.
Infix "*" := JS.mul : js_scope.
Infix "/" := JS.div : js_scope.
Infix "<?" := JS.lt : js_scope.
Infix "<=?" := JS.le : js_scope.
Infix ">?" := JS.gt : js_scope.
Infix ">=?" := JS.ge : js_scope.
Infix "==?" := JS.eq (at level 70) : js_scope.

Coercion JS.num : Q >-> JS.number.

Local Open Scope js_scope.

(** ** The data of the calculator *)

(** The input object [{ S0, Su, Sd, K, rPct }]. *)
Record PricingInputs : Type := mkInputs {
  S0 : number;
  Su : number;
  Sd : number;
  K : number;
  rPct : number
}.

(** The object returned by [computeOnePeriod]. *)
Record PricingResult : Type := mkResult {
  Cu : number;
  Cd : number;
  Pu : number;
  Pd : number;
  C0 : number;
  P0 : number;
  p : number
}.

(** A chart row [{ t, Up, Down }]; [None] is [null]. *)
Record point : Type := mkPoint {
  t : string;
  Up : option number;
  Down : option number
}.

(** The initial state of the form. *)
Definition initialInputs : PricingInputs :=
  {| S0 := 40; Su := 56; Sd := 32; K := 50; rPct := 5 |}.

(** ** Parsing guard *)

(** [safeParseFloat(value, fallback = 0)], with [parsed] standing for
    [parseFloat(value)]. *)
Definition safeParseFloat (parsed : number) (fallback : number) : number :=
  if isFinite parsed then parsed else fallback.

(** The five fields of the form. *)
Inductive field : Type := fS0 | fSu | fSd | fK | frPct.

(** [handleInputChange(field, value)]: the state update
    [{ ...prev, [field]: safeParseFloat(value) }]. *)
Definition handleInputChange (f : field) (parsed : number)
    (prev : PricingInputs) : PricingInputs :=
  let v := safeParseFloat parsed 0 in
  match f with
  | fS0 => mkInputs v (Su prev) (Sd prev) (K prev) (rPct prev)
  | fSu => mkInputs (S0 prev) v (Sd prev) (K prev) (rPct prev)
  | fSd => mkInputs (S0 prev) (Su prev) v (K prev) (rPct prev)
  | fK => mkInputs (S0 prev) (Su prev) (Sd prev) v (rPct prev)
  | frPct => mkInputs (S0 prev) (Su prev) (Sd prev) (K prev) v
  end.

(** ** The pricer *)

Definition computeOnePeriod (inputs : PricingInputs) : PricingResult :=
  let '(mkInputs S0 Su Sd K rPct) := inputs in
  let r := rPct / 100 in
  let Cu := Math_max (Su - K) 0 in
  let Cd := Math_max (Sd - K) 0 in
  let Pu := Math_max (K - Su) 0 in
  let Pd := Math_max (K - Sd) 0 in
  let p := ((1 + r) * S0 - Sd) / (Su - Sd) in
  let C0 := (p * Cu + (1 - p) * Cd) / (1 + r) in
  let P0 := (p * Pu + (1 - p) * Pd) / (1 + r) in
  {| Cu := Cu; Cd := Cd; Pu := Pu; Pd := Pd; C0 := C0; P0 := P0; p := p |}.

(** ** The validator *)

(** The message texts; the two source files differ in them only. *)
Record messages : Type := mkMessages {
  msg_S0 : string;
  msg_Su : string;
  msg_Sd : string;
  msg_K : string;
  msg_rPct : string;
  msg_upDown : string;
  msg_currentPrice : string
}.

Definition messages_App : messages := {|
  msg_S0 := "Current asset price must be greater than 0";
  msg_Su := "Up-state price must be greater than 0";
  msg_Sd := "Down-state price must be greater than 0";
  msg_K := "Strike price cannot be negative";
  msg_rPct := "Risk-free rate must be greater than -100%";
  msg_upDown := "Up-state price must exceed down-state price";
  msg_currentPrice :=
    "Current price should lie between down-state and up-state prices"
|}.

Definition messages_part_000 : messages := {|
  msg_S0 := "Current price must be positive";
  msg_Su := "Up-state price must be positive";
  msg_Sd := "Down-state price must be positive";
  msg_K := "Strike price cannot be negative";
  msg_rPct := "Risk-free rate must be > -100%";
  msg_upDown := "Up-state must exceed down-state";
  msg_currentPrice := "Current price should be between down and up states"
|}.

(** [if (c) errors[k] = v;] *)
Definition set_if (c : bool) (k v : string) (errors : gmap string string)
    : gmap string string :=
  if c then <[k := v]> errors else errors.

Definition validateInputs (m : messages) (inputs : PricingInputs)
    : gmap string string :=
  let errors : gmap string string := ∅ in
  let r := rPct inputs / 100 in
  let errors :=
    set_if (negb (truthy (S0 inputs)) || (S0 inputs <=? 0))
      "S0" (msg_S0 m) errors in
  let errors :=
    set_if (negb (truthy (Su inputs)) || (Su inputs <=? 0))
      "Su" (msg_Su m) errors in
  let errors :=
    set_if (negb (truthy (Sd inputs)) || (Sd inputs <=? 0))
      "Sd" (msg_Sd m) errors in
  let errors := set_if (K inputs <? 0) "K" (msg_K m) errors in
  let errors := set_if (r <=? -1) "rPct" (msg_rPct m) errors in
  let errors :=
    set_if ((Su inputs >? 0) && (Sd inputs >? 0) && (Su inputs <=? Sd inputs))
      "upDown" (msg_upDown m) errors in
  let errors :=
    set_if ((S0 inputs >? 0) && (Su inputs >? 0) && (Sd inputs >? 0)
            && negb ((Sd inputs <? S0 inputs) && (S0 inputs <? Su inputs)))
      "currentPrice" (msg_currentPrice m) errors in
  errors.

(** ** The component body: [calc] and the chart series *)

(** [Object.keys(errors).length] *)
Definition keys_length (errors : gmap string string) : nat := size errors.

(** The memoised [calc]: [null] when there are errors, else the result. *)
Definition calc (m : messages) (inputs : PricingInputs)
    : option PricingResult :=
  let inputErrors := validateInputs m inputs in
  if (0 <? keys_length inputErrors)%nat then None
  else Some (computeOnePeriod inputs).

(** The three series, as [App.jsx] builds them; the second source file
    builds the same arrays in a component it renders only when [calc] is
    not [null]. *)
Definition assetData (calc : option PricingResult) (inputs : PricingInputs)
    : list point :=
  match calc with
  | None => []
  | Some _ =>
      [ {| t := " "; Up := None; Down := None |};
        {| t := "t = 0"; Up := Some (S0 inputs); Down := Some (S0 inputs) |};
        {| t := "t = 1"; Up := Some (Su inputs); Down := Some (Sd inputs) |};
        {| t := "  "; Up := None; Down := None |} ]
  end.

Definition callData (calc : option PricingResult) : list point :=
  match calc with
  | None => []
  | Some calc =>
      [ {| t := " "; Up := None; Down := None |};
        {| t := "t = 0"; Up := Some (C0 calc); Down := Some (C0 calc) |};
        {| t := "t = 1"; Up := Some (Cu calc); Down := Some (Cd calc) |};
        {| t := "  "; Up := None; Down := None |} ]
  end.

Definition putData (calc : option PricingResult) : list point :=
  match calc with
  | None => []
  | Some calc =>
      [ {| t := " "; Up := None; Down := None |};
        {| t := "t = 0"; Up := Some (P0 calc); Down := Some (P0 calc) |};
        {| t := "t = 1"; Up := Some (Pu calc); Down := Some (Pd calc) |};
        {| t := "  "; Up := None; Down := None |} ]
  end.

(** ** Reading the validator *)

(** The keys [validateInputs] can set, in the order of its statements. *)
Inductive key : Type :=
| kS0 | kSu | kSd | kK | krPct | kupDown | kcurrentPrice.

#[global] Instance key_eq_dec : EqDecision key.
Proof. solve_decision. Defined.

Definition key_name (k : key) : string :=
  match k with
  | kS0 => "S0" | kSu => "Su" | kSd => "Sd" | kK => "K" | krPct => "rPct"
  | kupDown => "upDown" | kcurrentPrice => "currentPrice"
  end.

Definition all_keys : list key :=
  [kS0; kSu; kSd; kK; krPct; kupDown; kcurrentPrice].

(** The condition of the [if] statement that sets key [k]. *)
Definition check (k : key) (inputs : PricingInputs) : bool :=
  match k with
  | kS0 => negb (truthy (S0 inputs)) || (S0 inputs <=? 0)
  | kSu => negb (truthy (Su inputs)) || (Su inputs <=? 0)
  | kSd => negb (truthy (Sd inputs)) || (Sd inputs <=? 0)
  | kK => K inputs <? 0
  | krPct => rPct inputs / 100 <=? -1
  | kupDown =>
      (Su inputs >? 0) && (Sd inputs >? 0) && (Su inputs <=? Sd inputs)
  | kcurrentPrice =>
      (S0 inputs >? 0) && (Su inputs >? 0) && (Sd inputs >? 0)
      && negb ((Sd inputs <? S0 inputs) && (S0 inputs <? Su inputs))
  end.

Definition message (m : messages) (k : key) : string :=
  match k with
  | kS0 => msg_S0 m | kSu => msg_Su m | kSd => msg_Sd m | kK => msg_K m
  | krPct => msg_rPct m | kupDown => msg_upDown m
  | kcurrentPrice => msg_currentPrice m
  end.

(** The key is in the returned object. *)
Definition has_key (k : key) (errors : gmap string string) : Prop :=
  is_Some (errors !! key_name k).

(** ** Notions used in the statements *)

(** All five fields are finite numbers. *)
Definition all_finite (inputs : PricingInputs) : bool :=
  isFinite (S0 inputs) && isFinite (Su inputs) && isFinite (Sd inputs)
  && isFinite (K inputs) && isFinite (rPct inputs).

(** The rational a finite number stands for. *)
Definition value (x : number) : option Q :=
  match x with Fin _ q => Some q | _ => None end.


(** A finite number rounded to four decimals, in ten-thousandths; a tie
    goes to the larger value, as in [toFixed]. *)
Definition to_4_decimals (x : number) : option Z :=
  match x with
  | Fin _ q => Some (Qfloor (q * 10000 + (1 # 2)))
  | _ => None
  end.

(** The figures the specification gives for the canonical example. *)
Definition spec_canonical_values (calc : PricingResult) : Prop :=
  to_4_decimals (p calc) = Some 3375%Z
  /\ (Cu calc ==? 6) = true /\ (Cd calc ==? 0) = true
  /\ to_4_decimals (C0 calc) = Some 19286%Z
  /\ (Pu calc ==? 0) = true /\ (Pd calc ==? 18) = true
  /\ to_4_decimals (P0 calc) = Some 116107%Z.

(** A label made of spaces only. *)
Fixpoint blank (s : string) : bool :=
  match s with
  | EmptyString => true
  | String c s' => (Ascii.eqb c " "%char) && blank s'
  end.

(** The shape the specification gives to a series: a spacer, the [t = 0]
    point with both channels at [v0], the [t = 1] point with channels [up1]
    and [down1], a spacer. *)
Definition four_point_series (series : list point) (v0 up1 down1 : number)
    : Prop :=
  exists a b c d, series = [a; b; c; d]
    /\ blank (t a) = true /\ Up a = None /\ Down a = None
    /\ t b = "t = 0" /\ Up b = Some v0 /\ Down b = Some v0
    /\ t c = "t = 1" /\ Up c = Some up1 /\ Down c = Some down1
    /\ blank (t d) = true /\ Up d = None /\ Down d = None.

(** The rules of section 4.1 of the specification, each under the key it
    reports: 1. [S0 <= 0] (including non-finite/zero); 2. [Su <= 0];
    3. [Sd <= 0]; 4. [K < 0]; 5. [r <= -1] with [r = rPct / 100]; 6. if
    [Su > 0] and [Sd > 0]: [Su <= Sd]; 7. if [S0], [Su], [Sd] are all
    [> 0]: unless the current price is strictly between the down and up
    states (the chain of inequalities of rule 7 is read by the gloss that
    follows it there). *)
Definition spec_rule (k : key) (inputs : PricingInputs) : bool :=
  match k with
  | kS0 => (S0 inputs <=? 0) || negb (isFinite (S0 inputs))
  | kSu => Su inputs <=? 0
  | kSd => Sd inputs <=? 0
  | kK => K inputs <? 0
  | krPct => let r := rPct inputs / 100 in r <=? -1
  | kupDown =>
      (Su inputs >? 0) && (Sd inputs >? 0) && (Su inputs <=? Sd inputs)
  | kcurrentPrice =>
      (S0 inputs >? 0) && (Su inputs >? 0) && (Sd inputs >? 0)
      && negb ((Sd inputs <? S0 inputs) && (S0 inputs <? Su inputs))
  end.

(** ** Binary64, to test the number model

    The primitive floats of the prover are binary64 numbers with the
    operators of IEEE 754, which are those of the source language.  A number
    of the model whose numerator and denominator are below 2^53 is sent to
    the float nearest to it. *)

Definition float_of_Z (z : Z) : float :=
  match z with
  | Z0 => PrimFloat.zero
  | Zpos _ => PrimFloat.of_uint63 (Uint63.of_Z z)
  | Zneg q => PrimFloat.opp (PrimFloat.of_uint63 (Uint63.of_Z (Zpos q)))
  end.

Definition to_float (x : number) : float :=
  match x with
  | NaN => PrimFloat.nan
  | Inf false => PrimFloat.infinity
  | Inf true => PrimFloat.neg_infinity
  | Fin z q =>
      if Qeq_bool q 0 then (if z then PrimFloat.neg_zero else PrimFloat.zero)
      else PrimFloat.div (float_of_Z (Qnum q)) (float_of_Z (Zpos (Qden q)))
  end.

(** Special values and a few exactly representable ones. *)
Definition grid : list number :=
  [NaN; Inf false; Inf true; Fin false 0; Fin true 0; num 1; num (-1);
   num 2; num (1 # 2); num (-3 # 4); num 100; num (-100); num 40; num 56;
   num 32; num 50; num 5].

(** The same float, bit for bit up to the payload of NaN. *)
Definition same_float (x y : float) : bool :=
  match Prim2SF x, Prim2SF y with
  | S754_nan, S754_nan => true
  | S754_zero s, S754_zero s' => Bool.eqb s s'
  | S754_infinity s, S754_infinity s' => Bool.eqb s s'
  | S754_finite s m e, S754_finite s' m' e' =>
      Bool.eqb s s' && Pos.eqb m m' && Z.eqb e e'
  | _, _ => false
  end.

(** [g] on the floats of the grid gives the float of what [f] gives. *)
Definition agree2 (f : number -> number -> number)
    (g : float -> float -> float) : bool :=
  forallb (fun a => forallb (fun b =>
    same_float (to_float (f a b)) (g (to_float a) (to_float b))) grid) grid.

Definition agree_test (f : number -> number -> bool)
    (g : float -> float -> bool) : bool :=
  forallb (fun a => forallb (fun b =>
    Bool.eqb (f a b) (g (to_float a) (to_float b))) grid) grid.

(** The number of the model a float is, exactly. *)
Definition of_float (x : float) : number :=
  match Prim2SF x with
  | S754_nan => NaN
  | S754_infinity s => Inf s
  | S754_zero s => Fin s 0
  | S754_finite s m e =>
      Fin s (inject_Z (if s then Zneg m else Zpos m) * 2 ^ e)%Q
  end.

(** [Math.max(a, b)] on floats. *)
Definition max64 (a b : float) : float :=
  if PrimFloat.is_nan a || PrimFloat.is_nan b then PrimFloat.nan
  else if PrimFloat.ltb a b then b
  else if PrimFloat.ltb b a then a
  else if PrimFloat.get_sign a then b else a.

(** [computeOnePeriod] with every operation rounded as binary64 rounds it;
    the result is the list of [Cu], [Cd], [Pu], [Pd], [C0], [P0], [p]. *)
Definition computeOnePeriod64 (S0 Su Sd K rPct : float) : list float :=
  (let r := rPct / 100 in
   let Cu := max64 (Su - K) 0 in
   let Cd := max64 (Sd - K) 0 in
   let Pu := max64 (K - Su) 0 in
   let Pd := max64 (K - Sd) 0 in
   let p := ((1 + r) * S0 - Sd) / (Su - Sd) in
   let C0 := (p * Cu + (1 - p) * Cd) / (1 + r) in
   let P0 := (p * Pu + (1 - p) * Pd) / (1 + r) in
   [Cu; Cd; Pu; Pd; C0; P0; p])%float.

(** Binary64 numbers as inputs of the model: each is the number it is. *)
Definition inputs_of_floats (S0 Su Sd K rPct : float) : PricingInputs :=
  {| S0 := of_float S0; Su := of_float Su; Sd := of_float Sd;
     K := of_float K; rPct := of_float rPct |}.

(** The two sides of the parity equation, [C0 - P0] and [S0 - K / (1 + r)],
    with every operation rounded as binary64 rounds it. *)
Definition parity_sides64 (S0 Su Sd K rPct : float) : float * float :=
  (let calc := computeOnePeriod64 S0 Su Sd K rPct in
   (nth 4 calc nan - nth 5 calc nan, S0 - K / (1 + rPct / 100)))%float.

(** ** The form state, field by field *)

#[global] Instance field_eq_dec : EqDecision field.
Proof. solve_decision. Defined.

(** [inputs[field]] *)
Definition get_field (f : field) (inputs : PricingInputs) : number :=
  match f with
  | fS0 => S0 inputs | fSu => Su inputs | fSd => Sd inputs
  | fK => K inputs | frPct => rPct inputs
  end.

(** The key under which the validator reports on a field by itself. *)
Definition field_key (f : field) : key :=
  match f with
  | fS0 => kS0 | fSu => kSu | fSd => kSd | fK => kK | frPct => krPct
  end.

(** The state after a sequence of change events, each a field and the
    parsed text, applied in order as [setInputs(prev => ...)] does. *)
Definition run_edits (edits : list (field * number)) (st : PricingInputs)
    : PricingInputs :=
  fold_left (fun st e => handleInputChange (fst e) (snd e) st) edits st.

(** The keys of the [if] statements that fire, in the order of the
    statements. *)
Definition fired_keys (inputs : PricingInputs) : list key :=
  List.filter (fun k => check k inputs) all_keys.

(** The test under which the validator returns the empty object, in one
    expression: [Sd > 0 && Sd < S0 && S0 < Su && !(K < 0) && !(r <= -1)]. *)
Definition accepted (inputs : PricingInputs) : bool :=
  (Sd inputs >? 0) && (Sd inputs <? S0 inputs) && (S0 inputs <? Su inputs)
  && negb (K inputs <? 0) && negb (rPct inputs / 100 <=? -1).

(** [c] is the maximum of [x] and 0, on rationals. *)
Definition is_max_0 (x c : Q) : Prop :=
  ((x <= 0 /\ c == 0) \/ (0 <= x /\ c == x))%Q.

(** A priced input read as rationals: the five fields, the order the
    validator enforces on them, and the seven results as the rational
    expressions of [computeOnePeriod]. *)
Inductive rational_view (inputs : PricingInputs) : Prop :=
| RationalView (s u d k r cu cd pu pd : Q)
    (HS0 : value (S0 inputs) = Some s) (HSu : value (Su inputs) = Some u)
    (HSd : value (Sd inputs) = Some d) (HK : value (K inputs) = Some k)
    (HrPct : value (rPct inputs) = Some r)
    (Hd : (0 < d)%Q) (Hds : (d < s)%Q) (Hsu : (s < u)%Q)
    (Hk : (0 <= k)%Q) (Hr : (-100 < r)%Q)
    (HCu : value (Cu (computeOnePeriod inputs)) = Some cu)
    (HCd : value (Cd (computeOnePeriod inputs)) = Some cd)
    (HPu : value (Pu (computeOnePeriod inputs)) = Some pu)
    (HPd : value (Pd (computeOnePeriod inputs)) = Some pd)
    (Mcu : is_max_0 (u - k) cu) (Mcd : is_max_0 (d - k) cd)
    (Mpu : is_max_0 (k - u) pu) (Mpd : is_max_0 (k - d) pd)
    (Hp : value (p (computeOnePeriod inputs))
          = Some (((1 + r / 100) * s - d) / (u - d))%Q)
    (HC0 : value (C0 (computeOnePeriod inputs))
           = Some ((((1 + r / 100) * s - d) / (u - d) * cu
                    + (1 - ((1 + r / 100) * s - d) / (u - d)) * cd)
                   / (1 + r / 100))%Q)
    (HP0 : value (P0 (computeOnePeriod inputs))
           = Some ((((1 + r / 100) * s - d) / (u - d) * pu
                    + (1 - ((1 + r / 100) * s - d) / (u - d)) * pd)
                   / (1 + r / 100))%Q).

(** ** The error object in insertion order, and what is rendered from it *)

(** [o[k] = v] on an object held as the list of its entries in insertion
    order: an existing key keeps its place, a new one goes last. *)
Definition obj_set (k v : string) (o : list (string * string))
    : list (string * string) :=
  if existsb (fun e => String.eqb (fst e) k) o
  then map (fun e => if String.eqb (fst e) k then (k, v) else e) o
  else o ++ [(k, v)].

Definition set_if_entries (c : bool) (k v : string)
    (errors : list (string * string)) : list (string * string) :=
  if c then obj_set k v errors else errors.

(** [Object.entries(validateInputs(inputs))]: the validator again, on
    objects that keep the order of insertion. *)
Definition validateInputs_entries (m : messages) (inputs : PricingInputs)
    : list (string * string) :=
  let errors : list (string * string) := [] in
  let r := rPct inputs / 100 in
  let errors :=
    set_if_entries (negb (truthy (S0 inputs)) || (S0 inputs <=? 0))
      "S0" (msg_S0 m) errors in
  let errors :=
    set_if_entries (negb (truthy (Su inputs)) || (Su inputs <=? 0))
      "Su" (msg_Su m) errors in
  let errors :=
    set_if_entries (negb (truthy (Sd inputs)) || (Sd inputs <=? 0))
      "Sd" (msg_Sd m) errors in
  let errors := set_if_entries (K inputs <? 0) "K" (msg_K m) errors in
  let errors := set_if_entries (r <=? -1) "rPct" (msg_rPct m) errors in
  let errors :=
    set_if_entries
      ((Su inputs >? 0) && (Sd inputs >? 0) && (Su inputs <=? Sd inputs))
      "upDown" (msg_upDown m) errors in
  let errors :=
    set_if_entries
      ((S0 inputs >? 0) && (Su inputs >? 0) && (Sd inputs >? 0)
       && negb ((Sd inputs <? S0 inputs) && (S0 inputs <? Su inputs)))
      "currentPrice" (msg_currentPrice m) errors in
  errors.

(** A list item [<li key={field}>• {error}</li>]. *)
Record list_item : Type := mkItem {
  item_key : string;
  item_text : string
}.

(** [ValidationMessage({ errors })]: [null] without errors, else the items
    of the list under the heading; [None] for [errors] is a missing
    object. *)
Definition ValidationMessage (errors : option (list (string * string)))
    : option (list list_item) :=
  match errors with
  | None => None
  | Some entries =>
      if (length entries =? 0)%nat then None
      else Some (map (fun e => {| item_key := fst e;
                                  item_text := String.append "• " (snd e) |})
                   entries)
  end.

(** Truthiness of [inputErrors.S0]: a message or [undefined]. *)
Definition truthy_message (e : option string) : bool :=
  match e with
  | Some (String _ _) => true
  | _ => false
  end.

(** [aria-invalid={inputErrors.S0 ? 'true' : 'false'}] on the input of a
    field. *)
Definition aria_invalid (errors : gmap string string) (f : field) : string :=
  if truthy_message (errors !! key_name (field_key f)) then "true"
  else "false".

(** [aria-describedby={inputErrors.S0 ? "S0-error" : undefined}] *)
Definition aria_describedby (errors : gmap string string) (f : field)
    : option string :=
  if truthy_message (errors !! key_name (field_key f))
  then Some (String.append (key_name (field_key f)) "-error")
  else None.

(** The error element of [FormField({ id, error })], as its id and its
    text: [{error && <div role="alert" id={`${id}-error`}>{error}</div>}]. *)
Definition FormField_error (id : string) (error : option string)
    : option (string * string) :=
  match error with
  | Some (String c e) => Some (String.append id "-error", String c e)
  | _ => None
  end.

(** The border class of an input in the second source file:
    [inputErrors.S0 ? 'border-red-300' : 'border-gray-300']. *)
Definition border_class (errors : gmap string string) (f : field) : string :=
  if truthy_message (errors !! key_name (field_key f)) then "border-red-300"
  else "border-gray-300".

(** ** The dots of the charts *)

(** The data key a line reads, ['Up'] or ['Down']. *)
Inductive channel : Type := chUp | chDown.

(** The properties the chart passes to a dot; [None] is [undefined]. *)
Record dot_props : Type := mkProps {
  cx : option number;
  cy : option number;
  payload : option point
}.

(** The circle and its label. *)
Record labeled_dot : Type := mkDot {
  circle_cx : number;
  circle_cy : number;
  circle_r : number;
  circle_fill : string;
  text_x : number;
  text_y : number;
  text_fill : string;
  text_content : string
}.

(** [makeLabeledDot(key, color)(props)]; the built-in [toFixed(2)] is the
    parameter [toFixed2]. *)
Definition makeLabeledDot (toFixed2 : number -> string)
    (key : channel) (color : string) (props : dot_props)
    : option labeled_dot :=
  match payload props with
  | None => None
  | Some row =>
      if String.eqb (t row) " " || String.eqb (t row) "  " then None
      else
        let val := match key with chUp => Up row | chDown => Down row end in
        match cx props, cy props, val with
        | Some cx, Some cy, Some val =>
            if negb (isFinite cx) || negb (isFinite cy) then None
            else
              let text := toFixed2 val in
              let isStartingPoint := String.eqb (t row) "t = 0" in
              let labelY := if isStartingPoint then cy - 18 else cy - 8 in
              Some {| circle_cx := cx; circle_cy := cy; circle_r := 4;
                      circle_fill := color;
                      text_x := cx + 6; text_y := labelY;
                      text_fill := color; text_content := text |}
        | _, _, _ => None
        end
  end.

(** * Properties *)

(** ** The number model against binary64 *)

(** On the grid, which has every special value, the operators of the model
    and those of binary64 agree: same NaN and infinity results, same signs
    of zero, and finite results that are the rounding of the exact ones. *)
Lemma number_model_agrees_with_binary64 :
  agree2 JS.add PrimFloat.add = true
  /\ agree2 JS.sub PrimFloat.sub = true
  /\ agree2 JS.mul PrimFloat.mul = true
  /\ agree2 JS.div PrimFloat.div = true
  /\ agree_test JS.lt PrimFloat.ltb = true
  /\ agree_test JS.le PrimFloat.leb = true
  /\ agree_test JS.eq PrimFloat.eqb = true.
Proof. repeat split; vm_compute; reflexivity. Qed.

(** The one rounded operation of the validator is [rPct / 100].  In
    binary64 the quotient of the float next above -100 is still above -1,
    and that of -100 is -1: rule 5 draws the line where the exact quotient
    does. *)
Lemma rate_boundary_binary64 :
  let hundred := to_float (num 100) in
  let minus_one := to_float (num (-1)) in
  let minus_hundred := to_float (num (-100)) in
  PrimFloat.leb (PrimFloat.div minus_hundred hundred) minus_one = true
  /\ PrimFloat.leb (PrimFloat.div (PrimFloat.next_up minus_hundred) hundred)
       minus_one = false.
Proof. cbv zeta. split; vm_compute; reflexivity. Qed.

(** The canonical example with binary64 rounding: the same figures to four
    decimals as with exact arithmetic; [P0] is then a little under 10. *)
Lemma binary64_canonical_example :
  map (fun x => to_4_decimals (of_float x)) (computeOnePeriod64 40 56 32 50 5)
  = [Some 60000; Some 0; Some 0; Some 180000; Some 23810; Some 100000;
     Some 4167]%Z.
Proof. vm_compute. reflexivity. Qed.

(** Put-call parity with binary64 rounding.  On the canonical example the
    two sides of the equation are different floats, less than 2^-46 apart.
    On the finite input [S0 = 2^1023], [Su = 1.5 * 2^1023], [Sd = 1],
    [K = 0], [rPct = 100], which the validator accepts, [(1 + r) * S0]
    overflows: [p] is +Infinity, [C0] and [P0] are NaN, and so is
    [C0 - P0], which is within no tolerance of [S0 - K / (1 + r)]. *)
Lemma put_call_parity_in_binary64 :
  (let (lhs, rhs) := parity_sides64 40 56 32 50 5 in
   PrimFloat.eqb lhs rhs = false
   /\ PrimFloat.ltb (PrimFloat.abs (lhs - rhs)) 0x1p-46 = true)%float
  /\ (let inputs := inputs_of_floats 0x1p+1023 0x1.8p+1023 1 0 100 in
      validateInputs messages_App inputs = ∅
      /\ validateInputs messages_part_000 inputs = ∅
      /\ all_finite inputs = true)
  /\ computeOnePeriod64 0x1p+1023 0x1.8p+1023 1 0 100
     = [0x1.8p+1023; 1; 0; 0; nan; nan; infinity]%float
  /\ PrimFloat.is_nan (fst (parity_sides64 0x1p+1023 0x1.8p+1023 1 0 100))
     = true
  /\ snd (parity_sides64 0x1p+1023 0x1.8p+1023 1 0 100) = 0x1p+1023%float.
Proof. repeat split; vm_compute; reflexivity. Qed.

(** ** Rational comparisons *)

Lemma Qle_bool_false (a b : Q) : Qle_bool a b = false <-> (b < a)%Q.
Proof.
  split; intros H.
  - apply Qnot_le_lt. intros Hle. apply Qle_bool_iff in Hle. congruence.
  - destruct (Qle_bool a b) eqn:E; [|reflexivity].
    apply Qle_bool_iff in E. lra.
Qed.

Lemma Qeq_bool_false (a b : Q) : Qeq_bool a b = false <-> ~ (a == b)%Q.
Proof.
  split; intros H.
  - intros Heq. apply Qeq_bool_iff in Heq. congruence.
  - destruct (Qeq_bool a b) eqn:E; [|reflexivity].
    apply Qeq_bool_iff in E. contradiction.
Qed.

(** Turns the boolean tests on rationals among the hypotheses into
    propositions. *)
Ltac qprop :=
  unfold JS.Qlt_bool in *;
  repeat match goal with
  | H : negb _ = true |- _ => apply negb_true_iff in H
  | H : negb _ = false |- _ => apply negb_false_iff in H
  | H : Qle_bool _ _ = true |- _ => apply Qle_bool_iff in H
  | H : Qle_bool _ _ = false |- _ => apply Qle_bool_false in H
  | H : Qeq_bool _ _ = true |- _ => apply Qeq_bool_iff in H
  | H : Qeq_bool _ _ = false |- _ => apply Qeq_bool_false in H
  end.

(** Splits on every boolean test on rationals in sight and records the
    outcome as an inequality. *)
Ltac qsplit :=
  unfold JS.Qlt_bool in *;
  repeat match goal with
  | H : context [Qle_bool ?a ?b] |- _ =>
      let E := fresh "E" in
      destruct (Qle_bool a b) eqn:E;
      [apply Qle_bool_iff in E | apply Qle_bool_false in E]
  | |- context [Qle_bool ?a ?b] =>
      let E := fresh "E" in
      destruct (Qle_bool a b) eqn:E;
      [apply Qle_bool_iff in E | apply Qle_bool_false in E]
  | H : context [Qeq_bool ?a ?b] |- _ =>
      let E := fresh "E" in
      destruct (Qeq_bool a b) eqn:E;
      [apply Qeq_bool_iff in E | apply Qeq_bool_false in E]
  | |- context [Qeq_bool ?a ?b] =>
      let E := fresh "E" in
      destruct (Qeq_bool a b) eqn:E;
      [apply Qeq_bool_iff in E | apply Qeq_bool_false in E]
  end;
  cbn in *; try discriminate; try reflexivity; try (exfalso; lra).

(** ** The returned object, key by key *)

Lemma validateInputs_lookup (m : messages) (inputs : PricingInputs) (k : key) :
  validateInputs m inputs !! key_name k
  = if check k inputs then Some (message m k) else None.
Proof.
  unfold validateInputs, set_if.
  destruct k; cbn [check key_name message];
    repeat match goal with
    | |- context [if ?c then _ else _] => destruct c
    end; reflexivity.
Qed.

Lemma set_if_lookup_Some (c : bool) (k v : string)
    (errors : gmap string string) (s x : string) :
  set_if c k v errors !! s = Some x ->
  (c = true /\ s = k /\ x = v) \/ errors !! s = Some x.
Proof.
  unfold set_if. destruct c; [|now right].
  intros H. apply lookup_insert_Some in H as [[-> ->] | [_ H]]; auto.
Qed.

(** Every entry of the returned object is one of the seven keys, set by
    its own [if] statement. *)
Lemma validateInputs_entry (m : messages) (inputs : PricingInputs)
    (s x : string) :
  validateInputs m inputs !! s = Some x ->
  exists k, s = key_name k /\ check k inputs = true /\ x = message m k.
Proof.
  unfold validateInputs. intros H.
  repeat (apply set_if_lookup_Some in H as [(Hc & -> & ->) | H];
          [match goal with
           | |- exists k, ?n = _ /\ _ =>
               first [ now exists kS0 | now exists kSu | now exists kSd
                     | now exists kK | now exists krPct | now exists kupDown
                     | now exists kcurrentPrice ]
           end |]).
  rewrite lookup_empty in H. discriminate.
Qed.

Lemma has_key_check (m : messages) (inputs : PricingInputs) (k : key) :
  has_key k (validateInputs m inputs) <-> check k inputs = true.
Proof.
  unfold has_key. rewrite validateInputs_lookup.
  destruct (check k inputs); split; intros H; done.
Qed.

(** The object is empty exactly when no [if] statement fired. *)
Lemma validateInputs_empty (m : messages) (inputs : PricingInputs) :
  validateInputs m inputs = ∅ <-> forall k, check k inputs = false.
Proof.
  split.
  - intros H k. pose proof (validateInputs_lookup m inputs k) as L.
    rewrite H, lookup_empty in L. destruct (check k inputs); congruence.
  - intros H. apply map_empty. intros s.
    destruct (validateInputs m inputs !! s) as [x|] eqn:E; [|reflexivity].
    apply validateInputs_entry in E as (k & _ & Hk & _).
    rewrite H in Hk. discriminate.
Qed.

(** The test of rules 1 to 3: not truthy, or at most zero. *)
Lemma check_price (x : number) :
  (negb (truthy x) || (x <=? 0)) = ((x <=? 0) || isNaN x).
Proof. destruct x as [| [|] | z q]; cbn; try reflexivity. qsplit. Qed.

Lemma key_name_inj (k1 k2 : key) : key_name k1 = key_name k2 -> k1 = k2.
Proof. destruct k1, k2; cbn; intros H; (reflexivity || discriminate). Qed.

(** ** Finite values *)

Lemma value_isFinite (x : number) :
  isFinite x = true <-> exists q, value x = Some q.
Proof.
  destruct x; cbn; split; intros H; try discriminate; eauto.
  all: destruct H; discriminate.
Qed.

Section FiniteArithmetic.
Variables (a b : number) (qa qb : Q).
Hypothesis Ha : value a = Some qa.
Hypothesis Hb : value b = Some qb.

Lemma value_add : value (a + b) = Some (qa + qb)%Q.
Proof. destruct a, b; cbn in *; congruence. Qed.

Lemma value_sub : value (a - b) = Some (qa - qb)%Q.
Proof. destruct a, b; cbn in *; unfold Qminus; congruence. Qed.

Lemma value_mul : value (a * b) = Some (qa * qb)%Q.
Proof. destruct a, b; cbn in *; congruence. Qed.

Lemma value_div : ~ (qb == 0)%Q -> value (a / b) = Some (qa / qb)%Q.
Proof.
  intros Hnz. destruct a, b; cbn in *; try discriminate.
  injection Ha as ->. injection Hb as ->.
  apply Qeq_bool_false in Hnz. rewrite Hnz. reflexivity.
Qed.

Lemma eq_value : (qa == qb)%Q -> (a ==? b) = true.
Proof.
  intros Heq. destruct a, b; cbn in *; try discriminate.
  injection Ha as ->. injection Hb as ->. now apply Qeq_bool_iff.
Qed.

Lemma le_value : (a <=? b) = Qle_bool qa qb.
Proof. destruct a, b; cbn in *; congruence. Qed.

Lemma lt_value : (a <? b) = JS.Qlt_bool qa qb.
Proof. destruct a, b; cbn in *; congruence. Qed.
End FiniteArithmetic.

(** [Math.max(a, 0)] of a finite [a] is finite, not negative, and is [a]
    or zero. *)
Lemma value_max_0 (a : number) (qa : Q) :
  value a = Some qa ->
  exists q, value (Math_max a 0) = Some q /\ (0 <= q)%Q
    /\ ((qa <= 0 /\ q == 0) \/ (0 <= qa /\ q == qa))%Q.
Proof.
  destruct a as [| |z q]; cbn; try discriminate. intros [= ->].
  unfold JS.max. cbn.
  destruct (JS.Qlt_bool qa 0) eqn:E1; [|destruct (JS.Qlt_bool 0 qa) eqn:E2];
    qprop.
  - exists 0%Q. split; [reflexivity | split; [lra | left; split; lra]].
  - exists qa. split; [reflexivity | split; [lra | right; split; lra]].
  - destruct (if Qeq_bool qa 0 then z else false).
    + exists 0%Q. split; [reflexivity | split; [lra | left; split; lra]].
    + exists qa. split; [reflexivity | split; [lra | right; split; lra]].
Qed.

Lemma value_num (q : Q) : value (num q) = Some q.
Proof. reflexivity. Qed.

(** On a finite rate, rule 5 fires exactly when [rPct <= -100]. *)
Lemma check_rPct_value (inputs : PricingInputs) (q : Q) :
  value (rPct inputs) = Some q ->
  check krPct inputs = Qle_bool q (-100).
Proof.
  intros H. cbn [check].
  erewrite le_value;
    [ | eapply value_div; [exact H | apply value_num | lra]
      | apply value_num ].
  assert (Hq : (q / 100 == q * (1 # 100))%Q) by field.
  destruct (Qle_bool (q / 100) (-1)) eqn:E1, (Qle_bool q (-100)) eqn:E2;
    qprop; try reflexivity; exfalso; rewrite Hq in E1; lra.
Qed.


(** The difference of the call and put payoffs at a node is the forward
    payoff [S - K]. *)
Lemma payoff_difference (x y c q : Q) :
  ((x - y <= 0 /\ c == 0) \/ (0 <= x - y /\ c == x - y))%Q ->
  ((y - x <= 0 /\ q == 0) \/ (0 <= y - x /\ q == y - x))%Q ->
  (c - q == x - y)%Q.
Proof. intros [[? ?]|[? ?]] [[? ?]|[? ?]]; lra. Qed.


(** ** The memoised result *)

Lemma keys_length_pos (errors : gmap string string) :
  (0 <? keys_length errors)%nat = true <-> errors <> ∅.
Proof.
  unfold keys_length. rewrite Nat.ltb_lt.
  split.
  - intros H ->. rewrite map_size_empty in H. lia.
  - intros H. apply map_size_non_empty_iff in H. lia.
Qed.

Lemma calc_cases (m : messages) (inputs : PricingInputs) :
  (calc m inputs = Some (computeOnePeriod inputs)
   <-> validateInputs m inputs = ∅)
  /\ (calc m inputs = None <-> validateInputs m inputs <> ∅).
Proof.
  unfold calc.
  destruct (0 <? keys_length (validateInputs m inputs))%nat eqn:E.
  - apply keys_length_pos in E. split; split; intros H; congruence.
  - assert (Hv : validateInputs m inputs = ∅).
    { destruct (decide (validateInputs m inputs = ∅)) as [|Hne]; [done|].
      apply keys_length_pos in Hne. congruence. }
    split; split; intros H; congruence.
Qed.

(** ** The form holds finite numbers only *)

Lemma safeParseFloat_finite (parsed fallback : number) :
  isFinite fallback = true -> isFinite (safeParseFloat parsed fallback) = true.
Proof.
  intros H. unfold safeParseFloat.
  destruct (isFinite parsed) eqn:E; assumption.
Qed.

Lemma initialInputs_finite : all_finite initialInputs = true.
Proof. reflexivity. Qed.

(** Every edit keeps the five fields finite: what [validateInputs] and
    [computeOnePeriod] receive from the form is never NaN or infinite. *)
Lemma handleInputChange_finite
    (f : field) (parsed : number) (prev : PricingInputs) :
  all_finite prev = true ->
  all_finite (handleInputChange f parsed prev) = true.
Proof.
  unfold all_finite. intros H.
  repeat (apply andb_true_iff in H as [H ?]).
  pose proof (safeParseFloat_finite parsed 0 eq_refl) as Hv.
  destruct f; cbn [handleInputChange S0 Su Sd K rPct];
    repeat (apply andb_true_iff; split); assumption.
Qed.

(** ** C1: put-call parity *)




(** ** C2: the canonical example *)

(** C2 (amended).  [p] is computed as [((1+r)*S0 - Sd) / (Su - Sd)], and
    for [S0=40, Su=56, Sd=32, K=50, rPct=5] the results are, to four
    decimals, [p] 0.4167, [C0] 2.3810 and [P0] 10.0000, with the payoffs
    [Cu = 6], [Cd = 0], [Pu = 0] and [Pd = 18]: the same figures with exact
    arithmetic and with every operation rounded as binary64 rounds it (the
    payoffs come from the subtractions 56 - 50, 32 - 50, 50 - 56 and
    50 - 32, which no rounding touches). *)
Theorem canonical_example :
  (forall inputs : PricingInputs,
     p (computeOnePeriod inputs)
     = ((1 + rPct inputs / 100) * S0 inputs - Sd inputs)
       / (Su inputs - Sd inputs))
  /\ (let calc := computeOnePeriod initialInputs in
      to_4_decimals (p calc) = Some 4167%Z
      /\ (Cu calc ==? 6) = true /\ (Cd calc ==? 0) = true
      /\ to_4_decimals (C0 calc) = Some 23810%Z
      /\ (Pu calc ==? 0) = true /\ (Pd calc ==? 18) = true
      /\ to_4_decimals (P0 calc) = Some 100000%Z)
  /\ (let calc64 := computeOnePeriod64 40 56 32 50 5 in
      firstn 4 calc64 = [6; 0; 0; 18]%float
      /\ map (fun x => to_4_decimals (of_float x)) (skipn 4 calc64)
         = [Some 23810; Some 100000; Some 4167]%Z).
Proof.
  split; [| split].
  - intros [s u d k r]. reflexivity.
  - cbv zeta. repeat split; vm_compute; reflexivity.
  - cbv zeta. repeat split; vm_compute; reflexivity.
Qed.

(** The specification's figures for [p], [C0] and [P0] are not those of the
    code, whose [p] is more than 0.07 away from 0.3375. *)
Lemma spec_figures_of_canonical_example_wrong :
  let calc := computeOnePeriod initialInputs in
  ~ spec_canonical_values calc
  /\ to_4_decimals (p calc) <> Some 3375%Z
  /\ to_4_decimals (C0 calc) <> Some 19286%Z
  /\ to_4_decimals (P0 calc) <> Some 116107%Z
  /\ (p calc - num (3375 # 10000) >? num (7 # 100)) = true.
Proof.
  cbv zeta. unfold spec_canonical_values.
  split; [intros (H & _); vm_compute in H; discriminate |].
  repeat split; vm_compute; discriminate || reflexivity.
Qed.

(** ** C3: admissible inputs pass validation *)

(** C3.  Whenever [Sd < S0 < Su], [Su > Sd], the three prices are positive,
    [K >= 0] and [rPct > -100], [validateInputs] returns the empty object.
    The comparisons are those of the source language, so they already
    exclude NaN; the statement needs no further hypothesis that the values
    are finite. *)
Theorem validateInputs_accepts_admissible
    (m : messages) (inputs : PricingInputs) :
  (Sd inputs <? S0 inputs) = true -> (S0 inputs <? Su inputs) = true ->
  (Su inputs >? Sd inputs) = true ->
  (S0 inputs >? 0) = true -> (Su inputs >? 0) = true ->
  (Sd inputs >? 0) = true ->
  (K inputs >=? 0) = true -> (rPct inputs >? -100) = true ->
  validateInputs m inputs = ∅.
Proof.
  intros H1 H2 H3 H4 H5 H6 H7 H8.
  apply validateInputs_empty. intros k.
  destruct k.
  5: { destruct (rPct inputs) as [| [|] | z q] eqn:Er;
         try (cbn in H8; discriminate).
       - cbn [check]. rewrite Er. cbn. qsplit.
       - rewrite (check_rPct_value inputs q) by (rewrite Er; reflexivity).
         cbn in H8. qsplit. }
  4: { cbn [check]. destruct (K inputs) as [| [|] | ? ?];
       cbn in *; try discriminate; qsplit. }
  all: destruct inputs as [s u d x r]; cbn [check S0 Su Sd K rPct] in *;
    destruct s as [| [|] | ? ?], u as [| [|] | ? ?], d as [| [|] | ? ?];
    cbn in *; try discriminate; qsplit.
Qed.

Lemma validateInputs_accepts_admissible_witness :
  validateInputs messages_App initialInputs = ∅.
Proof.
  apply (validateInputs_accepts_admissible messages_App initialInputs);
    reflexivity.
Defined.

(** ** C4: the rules are independent *)

(** Away from [S0 = +Infinity] and from NaN in [Su] and [Sd], each [if]
    statement of the validator tests the rule of its key. *)
Lemma check_spec_rule (inputs : PricingInputs) (k : key) :
  S0 inputs <> Inf false ->
  isNaN (Su inputs) = false -> isNaN (Sd inputs) = false ->
  check k inputs = spec_rule k inputs.
Proof.
  intros H1 H2 H3. destruct k; cbn [check spec_rule]; try reflexivity.
  - rewrite check_price. revert H1.
    destruct (S0 inputs) as [| [|] | ? ?]; try reflexivity.
    intros []. reflexivity.
  - rewrite check_price, H2. apply orb_false_r.
  - rewrite check_price, H3. apply orb_false_r.
Qed.

Lemma rules_independent_aux (m : messages) (inputs : PricingInputs) :
  (forall k, has_key k (validateInputs m inputs)
             <-> spec_rule k inputs = true) ->
  (forall k, spec_rule k inputs = true ->
     (forall k', k' <> k -> spec_rule k' inputs = false) ->
     forall s : string,
       is_Some (validateInputs m inputs !! s) <-> s = key_name k)
  /\ (forall k1 k2, k1 <> k2 ->
        spec_rule k1 inputs = true -> spec_rule k2 inputs = true ->
        has_key k1 (validateInputs m inputs)
        /\ has_key k2 (validateInputs m inputs)).
Proof.
  intros Hiff. split.
  - intros k Hk Hothers s. split.
    + intros [x Hx]. apply validateInputs_entry in Hx as (k' & -> & Hc & _).
      apply has_key_check with (m := m) in Hc. apply Hiff in Hc.
      destruct (decide (k' = k)) as [-> | Hne]; [reflexivity |].
      rewrite (Hothers k' Hne) in Hc. discriminate.
    + intros ->. apply Hiff. exact Hk.
  - intros k1 k2 _ H1 H2. split; apply Hiff; assumption.
Qed.

(** C4 (amended).  For every input whose [S0] is not +Infinity and whose
    [Su] and [Sd] are not NaN, so in particular for every input made of
    finite numbers, each key is in the returned object exactly when its
    rule is violated, whatever the other rules say: an input violating
    exactly one rule gets exactly that rule's key, and an input violating
    two rules gets both keys.  The validator is a total function; every
    entry of its result is one of the seven keys with its message. *)
Theorem rules_independent (m : messages) (inputs : PricingInputs) :
  S0 inputs <> Inf false ->
  isNaN (Su inputs) = false -> isNaN (Sd inputs) = false ->
  (forall k, has_key k (validateInputs m inputs)
             <-> spec_rule k inputs = true)
  /\ (forall k, spec_rule k inputs = true ->
        (forall k', k' <> k -> spec_rule k' inputs = false) ->
        forall s : string,
          is_Some (validateInputs m inputs !! s) <-> s = key_name k)
  /\ (forall k1 k2, k1 <> k2 ->
        spec_rule k1 inputs = true -> spec_rule k2 inputs = true ->
        has_key k1 (validateInputs m inputs)
        /\ has_key k2 (validateInputs m inputs))
  /\ (forall s x : string, validateInputs m inputs !! s = Some x ->
        exists k, s = key_name k /\ x = message m k).
Proof.
  intros H1 H2 H3.
  assert (Hiff : forall k, has_key k (validateInputs m inputs)
                           <-> spec_rule k inputs = true).
  { intros k. rewrite has_key_check, check_spec_rule by assumption. done. }
  split; [exact Hiff |].
  destruct (rules_independent_aux m inputs Hiff) as [Hone Htwo].
  split; [exact Hone | split; [exact Htwo |]].
  intros s x Hx. apply validateInputs_entry in Hx as (k & -> & _ & ->).
  eauto.
Qed.

Lemma rules_independent_witness :
  let inputs := {| S0 := 40; Su := 30; Sd := 32; K := -1; rPct := 5 |} in
  has_key kK (validateInputs messages_App inputs)
  /\ has_key kupDown (validateInputs messages_App inputs).
Proof.
  cbv zeta.
  apply (rules_independent messages_App
           {| S0 := 40; Su := 30; Sd := 32; K := -1; rPct := 5 |});
    try reflexivity; discriminate.
Defined.

(** On non-finite values the keys do not follow the rules as written.
    With [S0 = +Infinity] rules 1 and 7 are both violated, with the guard
    of rule 7 holding, and the key [S0] is missing; with [Su = NaN] and a
    negative strike only rule 4 is violated, and the object has the two
    keys [Su] and [K]. *)
Lemma rules_not_followed_on_non_finite :
  let i1 := {| S0 := Inf false; Su := 2; Sd := 1; K := 0; rPct := 0 |} in
  let i2 := {| S0 := 40; Su := NaN; Sd := 32; K := -1; rPct := 5 |} in
  (spec_rule kS0 i1 = true /\ spec_rule kcurrentPrice i1 = true
   /\ validateInputs messages_App i1 !! "S0" = None)
  /\ (forallb (fun k => Bool.eqb (spec_rule k i2)
                          (if decide (k = kK) then true else false))
        all_keys = true
      /\ is_Some (validateInputs messages_App i2 !! "K")
      /\ is_Some (validateInputs messages_App i2 !! "Su")).
Proof. cbv zeta. repeat split; vm_compute; eauto. Qed.

(** ** C5: a result exists exactly when there are no errors *)

(** C5.  [calc] holds the result of [computeOnePeriod] exactly when
    [validateInputs] returns the empty object, and is [null], the pricer
    not being called, exactly when the object is not empty: there is never
    a result next to errors, and never neither. *)
Theorem result_iff_no_errors (m : messages) (inputs : PricingInputs) :
  (calc m inputs = Some (computeOnePeriod inputs)
   <-> validateInputs m inputs = ∅)
  /\ (calc m inputs = None <-> validateInputs m inputs <> ∅)
  /\ (is_Some (calc m inputs) <-> validateInputs m inputs = ∅).
Proof.
  destruct (calc_cases m inputs) as [HS HN].
  split; [exact HS | split; [exact HN |]].
  split.
  - intros [r Hr]. destruct (decide (validateInputs m inputs = ∅)) as [|Hne];
      [assumption |]. apply HN in Hne. congruence.
  - intros Hv. apply HS in Hv. rewrite Hv. eauto.
Qed.

(** ** C6: the chart series *)

(** C6.  When [calc] holds a result, the asset, call and put series are
    each the four points spacer, [t = 0], [t = 1], spacer, carrying
    [S0]/[Su]/[Sd], [C0]/[Cu]/[Cd] and [P0]/[Pu]/[Pd]. *)
Theorem chart_series_shape
    (m : messages) (inputs : PricingInputs) (result : PricingResult) :
  calc m inputs = Some result ->
  four_point_series (assetData (calc m inputs) inputs)
    (S0 inputs) (Su inputs) (Sd inputs)
  /\ four_point_series (callData (calc m inputs))
       (C0 result) (Cu result) (Cd result)
  /\ four_point_series (putData (calc m inputs))
       (P0 result) (Pu result) (Pd result).
Proof.
  intros ->. unfold four_point_series, assetData, callData, putData.
  repeat split; do 4 eexists; repeat split.
Qed.

Lemma chart_series_shape_witness :
  four_point_series (assetData (calc messages_App initialInputs) initialInputs)
    40 56 32.
Proof.
  apply (chart_series_shape messages_App initialInputs
           (computeOnePeriod initialInputs)).
  reflexivity.
Defined.

(** With errors present the three series are empty. *)
Lemma chart_series_empty (m : messages) (inputs : PricingInputs) :
  validateInputs m inputs <> ∅ ->
  assetData (calc m inputs) inputs = []
  /\ callData (calc m inputs) = [] /\ putData (calc m inputs) = [].
Proof.
  intros H. apply calc_cases in H. rewrite H. done.
Qed.

(** ** C7: the key [S0] *)

(** C7 (amended).  The returned object contains the key [S0] exactly when
    [S0 <= 0], which covers both zeros, the negative numbers and -Infinity,
    or [S0] is NaN; +Infinity is not flagged under [S0]. *)
Theorem S0_key_iff (m : messages) (inputs : PricingInputs) :
  has_key kS0 (validateInputs m inputs)
  <-> (S0 inputs <=? 0) = true \/ isNaN (S0 inputs) = true.
Proof.
  rewrite has_key_check. cbn [check]. rewrite check_price.
  apply orb_true_iff.
Qed.

Lemma S0_key_iff_witness :
  has_key kS0
    (validateInputs messages_App
       {| S0 := NaN; Su := 56; Sd := 32; K := 50; rPct := 5 |}).
Proof.
  apply (proj2 (S0_key_iff messages_App
                  {| S0 := NaN; Su := 56; Sd := 32; K := 50; rPct := 5 |})).
  right. reflexivity.
Defined.

(** [S0 = +Infinity] is not finite, and the object has no key [S0]. *)
Lemma S0_infinity_not_flagged :
  let inputs := {| S0 := Inf false; Su := 56; Sd := 32; K := 50; rPct := 5 |} in
  isFinite (S0 inputs) = false
  /\ validateInputs messages_App inputs !! "S0" = None
  /\ ~ has_key kS0 (validateInputs messages_App inputs).
Proof.
  cbv zeta. split; [reflexivity | split; [reflexivity |]].
  unfold has_key. intros [x Hx]. vm_compute in Hx. discriminate.
Qed.

(** An input whose [S0] is +Infinity is rejected all the same, under
    another key. *)
Lemma S0_infinity_rejected (m : messages) (inputs : PricingInputs) :
  S0 inputs = Inf false -> validateInputs m inputs <> ∅.
Proof.
  intros HS0 Hv.
  pose proof (proj1 (validateInputs_empty m inputs) Hv) as Hc.
  pose proof (Hc kSu) as H2. pose proof (Hc kSd) as H3.
  pose proof (Hc kcurrentPrice) as H7.
  destruct inputs as [s u d k r]. cbn [check S0 Su Sd] in *. subst s.
  destruct u as [| [|] | ? ?], d as [| [|] | ? ?];
    cbn in *; try discriminate; qsplit.
Qed.

(** ** C8: a valid input with [p] outside the unit interval *)

(** C8.  There are inputs on which [validateInputs] returns the empty
    object, so that [calc] holds their result, and whose [p] is above 1
    (a rate of 100%) or below 0 (a rate of -50%). *)
Theorem p_outside_unit_interval (m : messages) :
  (exists inputs, validateInputs m inputs = ∅
     /\ calc m inputs = Some (computeOnePeriod inputs)
     /\ (p (computeOnePeriod inputs) >? 1) = true)
  /\ (exists inputs, validateInputs m inputs = ∅
     /\ calc m inputs = Some (computeOnePeriod inputs)
     /\ (p (computeOnePeriod inputs) <? 0) = true).
Proof.
  split.
  - exists {| S0 := 40; Su := 56; Sd := 32; K := 50; rPct := 100 |}.
    repeat split; vm_compute; reflexivity.
  - exists {| S0 := 40; Su := 56; Sd := 32; K := 50; rPct := -50 |}.
    repeat split; vm_compute; reflexivity.
Qed.

(** ** C9: the key [K] *)

(** C9 (amended).  The returned object contains the key [K] exactly when
    [K < 0].  A strike that is NaN or +Infinity produces no [K] error, and
    when no other key is set the object is empty and [calc] holds the
    result of [computeOnePeriod] on that input; a strike of -Infinity is
    negative and is rejected under [K]. *)
Theorem K_key_iff_negative (m : messages) (inputs : PricingInputs) :
  (has_key kK (validateInputs m inputs) <-> (K inputs <? 0) = true)
  /\ (K inputs = NaN \/ K inputs = Inf false ->
      ~ has_key kK (validateInputs m inputs)
      /\ ((forall k, k <> kK -> ~ has_key k (validateInputs m inputs)) ->
          validateInputs m inputs = ∅
          /\ calc m inputs = Some (computeOnePeriod inputs)))
  /\ (K inputs = Inf true ->
      has_key kK (validateInputs m inputs) /\ calc m inputs = None).
Proof.
  assert (HK : has_key kK (validateInputs m inputs)
               <-> (K inputs <? 0) = true) by apply has_key_check.
  split; [exact HK | split].
  - intros HKv.
    assert (Hno : ~ has_key kK (validateInputs m inputs)).
    { rewrite HK. destruct HKv as [-> | ->]; cbn; discriminate. }
    split; [exact Hno |]. intros Hothers.
    assert (Hv : validateInputs m inputs = ∅).
    { apply validateInputs_empty. intros k.
      destruct (check k inputs) eqn:E; [|reflexivity].
      apply has_key_check with (m := m) in E.
      destruct (decide (k = kK)) as [-> | Hne]; [contradiction |].
      exfalso. exact (Hothers k Hne E). }
    split; [exact Hv |]. now apply calc_cases.
  - intros HKv.
    assert (Hyes : has_key kK (validateInputs m inputs)).
    { rewrite HK, HKv. reflexivity. }
    split; [exact Hyes |]. apply calc_cases.
    intros Hv. rewrite Hv in Hyes. unfold has_key in Hyes.
    rewrite lookup_empty in Hyes. by destruct Hyes.
Qed.

Lemma K_key_iff_negative_witness :
  let inputs := {| S0 := 40; Su := 56; Sd := 32; K := NaN; rPct := 5 |} in
  ~ has_key kK (validateInputs messages_App inputs)
  /\ validateInputs messages_App inputs = ∅
  /\ calc messages_App inputs = Some (computeOnePeriod inputs).
Proof.
  cbv zeta.
  destruct (K_key_iff_negative messages_App
    {| S0 := 40; Su := 56; Sd := 32; K := NaN; rPct := 5 |})
    as (_ & H & _).
  destruct (H (or_introl eq_refl)) as [Hno Hrest].
  split; [exact Hno |]. apply Hrest.
  intros k _ Hc. apply has_key_check in Hc.
  destruct k; vm_compute in Hc; discriminate.
Defined.

(** [K = -Infinity] is not finite, yet the object has the key [K] and no
    result is computed. *)
Lemma K_minus_infinity_flagged :
  let inputs := {| S0 := 40; Su := 56; Sd := 32; K := Inf true; rPct := 5 |} in
  isFinite (K inputs) = false
  /\ validateInputs messages_App inputs !! "K"
     = Some "Strike price cannot be negative"
  /\ calc messages_App inputs = None.
Proof. cbv zeta. repeat split. Qed.

(** ** C10: the terminal payoffs *)






(** * Further properties of the code *)

(** ** The form state: [safeParseFloat] and [handleInputChange] *)

Lemma run_edits_finite_aux (edits : list (field * number)) (st : PricingInputs) :
  all_finite st = true -> all_finite (run_edits edits st) = true.
Proof.
  unfold run_edits. revert st.
  induction edits as [|[f x] edits IH]; intros st H; [exact H |].
  cbn [fold_left]. apply IH. now apply handleInputChange_finite.
Qed.

(** X1.  Whatever is typed, in whatever order, the five fields of the form
    stay finite numbers: no sequence of edits of a state with finite fields
    (the initial state is one) brings NaN or an infinity into it. *)
Theorem edits_keep_fields_finite
    (edits : list (field * number)) (st : PricingInputs) :
  all_finite st = true -> all_finite (run_edits edits st) = true.
Proof. apply run_edits_finite_aux. Qed.

Lemma edits_keep_fields_finite_witness :
  all_finite
    (run_edits [(fS0, NaN); (fK, Inf false); (frPct, num 7)] initialInputs)
  = true.
Proof.
  apply (edits_keep_fields_finite
           [(fS0, NaN); (fK, Inf false); (frPct, num 7)] initialInputs).
  reflexivity.
Defined.

Lemma get_field_ext (a b : PricingInputs) :
  (forall f, get_field f a = get_field f b) -> a = b.
Proof.
  intros H. destruct a, b.
  pose proof (H fS0). pose proof (H fSu). pose proof (H fSd).
  pose proof (H fK). pose proof (H frPct). cbn in *. congruence.
Qed.

Lemma get_field_edit
    (f g : field) (parsed : number) (prev : PricingInputs) :
  get_field g (handleInputChange f parsed prev)
  = if decide (g = f) then safeParseFloat parsed 0 else get_field g prev.
Proof. destruct f, g; reflexivity. Qed.

(** X3.  The last edit of a field wins, and edits of different fields
    commute. *)
Theorem edits_compose (f g : field) (x y : number) (prev : PricingInputs) :
  handleInputChange f y (handleInputChange f x prev)
  = handleInputChange f y prev
  /\ (f <> g ->
      handleInputChange f x (handleInputChange g y prev)
      = handleInputChange g y (handleInputChange f x prev)).
Proof.
  split.
  - apply get_field_ext. intros h. rewrite !get_field_edit.
    destruct (decide (h = f)); reflexivity.
  - intros Hne. apply get_field_ext. intros h. rewrite !get_field_edit.
    destruct (decide (h = f)), (decide (h = g)); congruence.
Qed.

Lemma edits_compose_witness :
  handleInputChange fS0 (num 1) (handleInputChange fK (num 2) initialInputs)
  = handleInputChange fK (num 2) (handleInputChange fS0 (num 1) initialInputs).
Proof.
  apply (edits_compose fS0 fK (num 1) (num 2) initialInputs). discriminate.
Defined.

(** X4.  An empty, unparsable or zero entry in a price field leaves 0 in
    it, which the validator reports under that field's key, and no result
    is computed; the same entry in the strike or the rate field leaves 0
    too, and the validator has nothing against it under that field's
    key. *)
Theorem zero_or_unparsable_entry
    (m : messages) (f : field) (parsed : number) (prev : PricingInputs) :
  isFinite parsed = false \/ isZero parsed = true ->
  let st := handleInputChange f parsed prev in
  match f with
  | fS0 | fSu | fSd =>
      has_key (field_key f) (validateInputs m st) /\ calc m st = None
  | fK | frPct => ~ has_key (field_key f) (validateInputs m st)
  end.
Proof.
  intros Hp st.
  assert (Hz : isZero (get_field f st) = true).
  { subst st. rewrite get_field_edit. rewrite decide_True by reflexivity.
    unfold safeParseFloat. destruct Hp as [-> | Hp]; [reflexivity |].
    destruct parsed; try discriminate. exact Hp. }
  assert (Hprice : forall x, isZero x = true ->
            negb (truthy x) || (x <=? 0) = true).
  { intros [| |z q]; cbn; try discriminate. intros ->. reflexivity. }
  assert (Hrest : forall x, isZero x = true ->
            (x <? 0) = false /\ (x / 100 <=? -1) = false).
  { intros [| |z q] Hq; try discriminate.
    cbn in Hq. apply Qeq_bool_iff in Hq. split.
    - cbn. unfold JS.Qlt_bool.
      destruct (Qle_bool 0 q) eqn:E; [reflexivity |].
      apply Qle_bool_false in E. lra.
    - erewrite le_value;
        [ | eapply value_div; [reflexivity | apply value_num | lra]
          | apply value_num ].
      destruct (Qle_bool (q / 100) (-1)) eqn:E; [|reflexivity].
      apply Qle_bool_iff in E.
      assert (Hq' : (q / 100 == q * (1 # 100))%Q) by field.
      rewrite Hq' in E. lra. }
  destruct f; cbn [field_key get_field] in *.
  1-3: match goal with
       | |- has_key ?k _ /\ _ =>
           assert (Hk : check k st = true)
             by (cbn [check]; apply Hprice, Hz)
       end;
    split; [now apply has_key_check |];
    apply calc_cases; intros Hv;
    rewrite (proj1 (validateInputs_empty m st) Hv) in Hk; discriminate.
  all: rewrite has_key_check; cbn [check];
    destruct (Hrest _ Hz) as [H1 H2]; rewrite ?H1, ?H2; discriminate.
Qed.

Lemma zero_or_unparsable_entry_witness :
  calc messages_App (handleInputChange fSu NaN initialInputs) = None.
Proof.
  apply (zero_or_unparsable_entry messages_App fSu NaN initialInputs).
  left. reflexivity.
Defined.

(** ** The validator as a whole *)

(** The three price tests and the two tests on their order, on fields that
    are split into cases. *)
Lemma price_checks_accept (s u d : number) :
  (negb (truthy s) || (s <=? 0)) = false ->
  (negb (truthy u) || (u <=? 0)) = false ->
  (negb (truthy d) || (d <=? 0)) = false ->
  ((u >? 0) && (d >? 0) && (u <=? d)) = false ->
  ((s >? 0) && (u >? 0) && (d >? 0) && negb ((d <? s) && (s <? u))) = false ->
  ((d >? 0) && (d <? s) && (s <? u)) = true.
Proof.
  intros H1 H2 H3 H6 H7.
  destruct s as [| [|] | ? ?], u as [| [|] | ? ?], d as [| [|] | ? ?];
    cbn in *; try discriminate; qsplit.
Qed.

Lemma price_checks_reject (s u d : number) :
  ((d >? 0) && (d <? s) && (s <? u)) = true ->
  (negb (truthy s) || (s <=? 0)) = false
  /\ (negb (truthy u) || (u <=? 0)) = false
  /\ (negb (truthy d) || (d <=? 0)) = false
  /\ ((u >? 0) && (d >? 0) && (u <=? d)) = false
  /\ ((s >? 0) && (u >? 0) && (d >? 0) && negb ((d <? s) && (s <? u)))
     = false.
Proof.
  intros H.
  destruct s as [| [|] | ? ?], u as [| [|] | ? ?], d as [| [|] | ? ?];
    cbn in *; try discriminate; qsplit; repeat split.
Qed.

Lemma validateInputs_empty_accepted (m : messages) (inputs : PricingInputs) :
  validateInputs m inputs = ∅ <-> accepted inputs = true.
Proof.
  rewrite validateInputs_empty. unfold accepted. split.
  - intros Hc.
    pose proof (price_checks_accept _ _ _ (Hc kS0) (Hc kSu) (Hc kSd)
                  (Hc kupDown) (Hc kcurrentPrice)) as Hp.
    pose proof (Hc kK) as H4. pose proof (Hc krPct) as H5.
    cbn [check] in H4, H5. rewrite Hp, H4, H5. reflexivity.
  - intros H. repeat (apply andb_true_iff in H as [H ?]).
    assert (Hp : ((Sd inputs >? 0) && (Sd inputs <? S0 inputs)
                  && (S0 inputs <? Su inputs)) = true).
    { repeat (apply andb_true_iff; split); assumption. }
    apply price_checks_reject in Hp as (P1 & P2 & P3 & P6 & P7).
    intros k. destruct k; cbn [check]; try assumption.
    + now apply negb_true_iff.
    + now apply negb_true_iff.
Qed.

(** X5.  The validator returns the empty object exactly when
    [Sd > 0 && Sd < S0 && S0 < Su && !(K < 0) && !(rPct / 100 <= -1)]: the
    seven rules accept the inputs with a positive down state strictly below
    the current price, itself strictly below the up state, and a strike and
    a rate that are not known to be out of range. *)
Theorem empty_iff_accepted (m : messages) (inputs : PricingInputs) :
  validateInputs m inputs = ∅ <-> accepted inputs = true.
Proof. apply validateInputs_empty_accepted. Qed.

Lemma empty_iff_accepted_witness :
  validateInputs messages_App initialInputs = ∅.
Proof.
  apply (proj2 (empty_iff_accepted messages_App initialInputs)). reflexivity.
Defined.

Lemma order_checks_exclude (inputs : PricingInputs) :
  (check kupDown inputs = true ->
   check kSu inputs = false /\ check kSd inputs = false
   /\ (check kS0 inputs = true \/ check kcurrentPrice inputs = true))
  /\ (check kcurrentPrice inputs = true ->
      check kS0 inputs = false /\ check kSu inputs = false
      /\ check kSd inputs = false).
Proof.
  destruct inputs as [s u d k r]. cbn [check S0 Su Sd]. split; intros H.
  - destruct s as [| [|] | ? ?], u as [| [|] | ? ?], d as [| [|] | ? ?];
      cbn in *; try discriminate; qsplit; repeat split; auto.
  - destruct s as [| [|] | ? ?], u as [| [|] | ? ?], d as [| [|] | ? ?];
      cbn in *; try discriminate; qsplit; repeat split; auto.
Qed.

(** X6.  The two errors on the order of the prices need positive prices:
    [upDown] is never set together with [Su] or [Sd], [currentPrice] never
    together with [S0], [Su] or [Sd]; and [upDown] never comes alone, an
    up state at or below the down state leaving no room for the current
    price, which is then reported under [S0] or [currentPrice]. *)
Theorem order_errors_and_price_errors
    (m : messages) (inputs : PricingInputs) :
  (has_key kupDown (validateInputs m inputs) ->
   ~ has_key kSu (validateInputs m inputs)
   /\ ~ has_key kSd (validateInputs m inputs)
   /\ (has_key kS0 (validateInputs m inputs)
       \/ has_key kcurrentPrice (validateInputs m inputs)))
  /\ (has_key kcurrentPrice (validateInputs m inputs) ->
      ~ has_key kS0 (validateInputs m inputs)
      /\ ~ has_key kSu (validateInputs m inputs)
      /\ ~ has_key kSd (validateInputs m inputs)).
Proof.
  rewrite !has_key_check.
  destruct (order_checks_exclude inputs) as [Hu Hc]. split; intros H.
  - destruct (Hu H) as (-> & -> & Hor). repeat split; try discriminate.
    exact Hor.
  - destruct (Hc H) as (-> & -> & ->). repeat split; discriminate.
Qed.

Lemma order_errors_and_price_errors_witness :
  let inputs := {| S0 := 40; Su := 30; Sd := 32; K := 50; rPct := 5 |} in
  ~ has_key kSu (validateInputs messages_App inputs).
Proof.
  cbv zeta.
  apply (proj1 (order_errors_and_price_errors messages_App
    {| S0 := 40; Su := 30; Sd := 32; K := 50; rPct := 5 |})).
  apply has_key_check. reflexivity.
Defined.

Lemma validateInputs_size (m : messages) (inputs : PricingInputs) :
  keys_length (validateInputs m inputs) = length (fired_keys inputs).
Proof.
  unfold keys_length, validateInputs, set_if, fired_keys, all_keys.
  cbn [List.filter check].
  repeat match goal with
  | |- context [if ?c then _ else _] => destruct c
  end; reflexivity.
Qed.

(** X7.  [Object.keys(errors).length] is the number of rules that fire,
    and it is never more than five: the two errors on the order of the
    prices take the place of price errors. *)
Theorem at_most_five_errors (m : messages) (inputs : PricingInputs) :
  keys_length (validateInputs m inputs) = length (fired_keys inputs)
  /\ (keys_length (validateInputs m inputs) <= 5)%nat.
Proof.
  split; [apply validateInputs_size |].
  rewrite validateInputs_size.
  destruct (order_checks_exclude inputs) as [Hu Hc].
  unfold fired_keys, all_keys. cbn [List.filter].
  destruct (check kupDown inputs);
    [destruct (Hu eq_refl) as (-> & -> & _) |];
    (destruct (check kcurrentPrice inputs);
       [destruct (Hc eq_refl) as (E1 & E2 & E3); rewrite ?E1, ?E2, ?E3 |]);
    destruct (check kS0 inputs), (check kSu inputs), (check kSd inputs),
      (check kK inputs), (check krPct inputs); cbn; lia.
Qed.

Lemma eq_states_rejected (inputs : PricingInputs) :
  (Su inputs ==? Sd inputs) = true ->
  check kupDown inputs = true \/ check kSu inputs = true.
Proof.
  destruct inputs as [s u d k r]. cbn [check S0 Su Sd]. intros H.
  destruct u as [| [|] | ? ?], d as [| [|] | ? ?];
    cbn in *; try discriminate; qsplit; auto.
Qed.

(** X8.  Equal up and down states are always rejected (under [upDown]
    when they are positive, under [Su] otherwise), so that no result is
    computed for them. *)
Theorem equal_states_never_priced (m : messages) (inputs : PricingInputs) :
  (Su inputs ==? Sd inputs) = true ->
  (has_key kupDown (validateInputs m inputs)
   \/ has_key kSu (validateInputs m inputs))
  /\ calc m inputs = None.
Proof.
  intros H. apply eq_states_rejected in H. split.
  - rewrite !has_key_check. exact H.
  - apply calc_cases. intros Hv.
    pose proof (proj1 (validateInputs_empty m inputs) Hv) as Hc.
    destruct H as [H | H]; rewrite Hc in H; discriminate.
Qed.

Lemma equal_states_never_priced_witness :
  calc messages_App {| S0 := 40; Su := 32; Sd := 32; K := 50; rPct := 5 |}
  = None.
Proof.
  apply (equal_states_never_priced messages_App
           {| S0 := 40; Su := 32; Sd := 32; K := 50; rPct := 5 |}).
  reflexivity.
Defined.

Lemma accepted_divisors (inputs : PricingInputs) :
  accepted inputs = true ->
  isZero (Su inputs - Sd inputs) = false
  /\ isZero (1 + rPct inputs / 100) = false.
Proof.
  unfold accepted. intros H.
  apply andb_true_iff in H as [H Hr]. apply andb_true_iff in H as [H _].
  apply andb_true_iff in H as [H Hsu]. apply andb_true_iff in H as [Hd Hds].
  apply negb_true_iff in Hr. split.
  - destruct (S0 inputs) as [| [|] | ? s], (Su inputs) as [| [|] | ? u],
      (Sd inputs) as [| [|] | ? d]; cbn in *; try discriminate; try reflexivity.
    qsplit.
  - destruct (rPct inputs) as [| [|] | z q] eqn:Er; try reflexivity.
    assert (Hq : value (Fin z q / 100) = Some (q / 100)%Q).
    { eapply value_div; [reflexivity | apply value_num | lra]. }
    rewrite (le_value _ _ _ _ Hq (value_num (-1))) in Hr.
    apply Qle_bool_false in Hr.
    destruct (Fin z q / 100) as [| |z' q'] eqn:Eq; try discriminate.
    injection Hq as ->. cbn. apply Qeq_bool_false. lra.
Qed.

(** X9.  Whenever [calc] holds a result, the two divisors of
    [computeOnePeriod], [Su - Sd] and [1 + r], were not zero: the
    component never divides by zero. *)
Theorem calc_never_divides_by_zero
    (m : messages) (inputs : PricingInputs) (result : PricingResult) :
  calc m inputs = Some result ->
  result = computeOnePeriod inputs
  /\ isZero (Su inputs - Sd inputs) = false
  /\ isZero (1 + rPct inputs / 100) = false.
Proof.
  intros H.
  assert (Hv : validateInputs m inputs = ∅).
  { destruct (decide (validateInputs m inputs = ∅)) as [|Hne]; [assumption |].
    apply calc_cases in Hne. congruence. }
  split.
  - pose proof (proj2 (proj1 (calc_cases m inputs)) Hv) as Hs. congruence.
  - apply accepted_divisors. now apply (validateInputs_empty_accepted m).
Qed.

Lemma calc_never_divides_by_zero_witness :
  isZero (Su initialInputs - Sd initialInputs) = false
  /\ isZero (1 + rPct initialInputs / 100) = false.
Proof.
  apply (calc_never_divides_by_zero messages_App initialInputs
           (computeOnePeriod initialInputs)).
  reflexivity.
Defined.

(** X10.  The message texts have no part in the outcome: with any two
    tables of messages, those of the two source files for one, the
    validator sets the same keys and [calc] holds the same result. *)
Theorem outcome_independent_of_messages
    (m m' : messages) (inputs : PricingInputs) :
  dom (validateInputs m inputs) = dom (validateInputs m' inputs)
  /\ calc m inputs = calc m' inputs.
Proof.
  split.
  - apply set_eq. intros s. rewrite !elem_of_dom. split; intros [x Hx];
      apply validateInputs_entry in Hx as (k & -> & Hk & _);
      rewrite validateInputs_lookup, Hk; eauto.
  - destruct (decide (validateInputs m inputs = ∅)) as [Hv | Hne].
    + pose proof Hv as Hv'.
      rewrite validateInputs_empty in Hv'.
      apply (validateInputs_empty m') in Hv'.
      rewrite (proj2 (proj1 (calc_cases m inputs)) Hv).
      rewrite (proj2 (proj1 (calc_cases m' inputs)) Hv'). reflexivity.
    + assert (Hne' : validateInputs m' inputs <> ∅).
      { intros Hv'. apply Hne. rewrite validateInputs_empty in Hv'.
        now apply validateInputs_empty. }
      rewrite (proj2 (proj2 (calc_cases m inputs)) Hne).
      rewrite (proj2 (proj2 (calc_cases m' inputs)) Hne'). reflexivity.
Qed.

(** ** The pricer on the inputs the form can hold *)

Lemma all_finite_fields (inputs : PricingInputs) :
  all_finite inputs = true ->
  isFinite (S0 inputs) = true /\ isFinite (Su inputs) = true
  /\ isFinite (Sd inputs) = true /\ isFinite (K inputs) = true
  /\ isFinite (rPct inputs) = true.
Proof.
  unfold all_finite. intros H.
  repeat (apply andb_true_iff in H as [H ?]). auto.
Qed.

Lemma calc_Some_accepted
    (m : messages) (inputs : PricingInputs) (result : PricingResult) :
  calc m inputs = Some result ->
  result = computeOnePeriod inputs /\ accepted inputs = true.
Proof.
  intros H.
  assert (Hv : validateInputs m inputs = ∅).
  { destruct (decide (validateInputs m inputs = ∅)) as [|Hne]; [assumption |].
    rewrite (proj2 (proj2 (calc_cases m inputs)) Hne) in H. discriminate. }
  split.
  - rewrite (proj2 (proj1 (calc_cases m inputs)) Hv) in H. congruence.
  - now apply (validateInputs_empty_accepted m).
Qed.

Lemma accepted_rational_view (inputs : PricingInputs) :
  all_finite inputs = true -> accepted inputs = true ->
  rational_view inputs.
Proof.
  intros Hf Ha.
  destruct (all_finite_fields _ Hf) as (F0 & Fu & Fd & Fk & Fr).
  apply value_isFinite in F0 as [s Hs], Fu as [u Hu], Fd as [d Hd],
    Fk as [k Hk], Fr as [r Hr].
  unfold accepted in Ha.
  apply andb_true_iff in Ha as [Ha Ar]. apply andb_true_iff in Ha as [Ha Ak].
  apply andb_true_iff in Ha as [Ha Asu]. apply andb_true_iff in Ha as [Ad Ads].
  unfold JS.gt in Ad.
  rewrite (lt_value _ _ _ _ (value_num 0) Hd) in Ad.
  rewrite (lt_value _ _ _ _ Hd Hs) in Ads.
  rewrite (lt_value _ _ _ _ Hs Hu) in Asu.
  rewrite (lt_value _ _ _ _ Hk (value_num 0)) in Ak.
  change (rPct inputs / 100 <=? -1) with (check krPct inputs) in Ar.
  rewrite (check_rPct_value _ _ Hr) in Ar.
  qprop.
  assert (H100 : ~ (100 == 0)%Q) by lra.
  assert (HD : ~ (1 + r / 100 == 0)%Q).
  { assert (Hq : (r / 100 == r * (1 # 100))%Q) by field. rewrite Hq. lra. }
  assert (Hud : ~ (u - d == 0)%Q) by lra.
  destruct inputs as [xS0 xSu xSd xK xrPct]. cbn [S0 Su Sd K rPct] in *.
  destruct (value_max_0 _ _ (value_sub _ _ _ _ Hu Hk)) as (cu & Hcu & _ & Scu).
  destruct (value_max_0 _ _ (value_sub _ _ _ _ Hd Hk)) as (cd & Hcd & _ & Scd).
  destruct (value_max_0 _ _ (value_sub _ _ _ _ Hk Hu)) as (pu & Hpu & _ & Spu).
  destruct (value_max_0 _ _ (value_sub _ _ _ _ Hk Hd)) as (pd & Hpd & _ & Spd).
  apply (RationalView _ s u d k r cu cd pu pd); try assumption;
    unfold computeOnePeriod; cbn [Cu Cd Pu Pd C0 P0 p S0 Su Sd K rPct];
    try assumption; try lra;
    repeat first
      [ eassumption | apply value_num | eapply value_sub
      | eapply value_add | eapply value_mul | eapply value_div ].
Qed.







(** ** The pricer by itself *)

Lemma isZero_value (x : number) (q : Q) :
  value x = Some q -> isZero x = Qeq_bool q 0.
Proof. destruct x; cbn; try discriminate. now intros [= ->]. Qed.

(** Of the maxima with 0 of [x - y] and of [y - x], one is 0. *)
Lemma one_payoff_is_zero (a b : number) (x y c q : Q) :
  value a = Some c -> value b = Some q ->
  is_max_0 (x - y) c -> is_max_0 (y - x) q ->
  (isZero a || isZero b) = true.
Proof.
  intros Ha Hb Mc Mq.
  rewrite (isZero_value _ _ Ha), (isZero_value _ _ Hb).
  apply orb_true_iff.
  destruct Mc as [[? E]|[? E]]; [left; now apply Qeq_bool_iff |].
  destruct Mq as [[? F]|[? F]]; [right; now apply Qeq_bool_iff |].
  left. apply Qeq_bool_iff. lra.
Qed.

(** X14.  Whatever the inputs, as long as [Su], [Sd] and [K] are finite:
    at each node the call and the put never both pay (one of the two
    payoffs is 0) and the call payoff less the put payoff is the price less
    the strike, as the source computes that difference. *)
Theorem call_and_put_payoffs (inputs : PricingInputs) :
  isFinite (Su inputs) = true -> isFinite (Sd inputs) = true ->
  isFinite (K inputs) = true ->
  let calc := computeOnePeriod inputs in
  (isZero (Cu calc) || isZero (Pu calc)) = true
  /\ (isZero (Cd calc) || isZero (Pd calc)) = true
  /\ (Cu calc - Pu calc ==? Su inputs - K inputs) = true
  /\ (Cd calc - Pd calc ==? Sd inputs - K inputs) = true.
Proof.
  intros Fu Fd Fk.
  apply value_isFinite in Fu as [u Hu], Fd as [d Hd], Fk as [k Hk].
  destruct inputs as [xS0 xSu xSd xK xrPct]. cbn [S0 Su Sd K rPct] in *.
  destruct (value_max_0 _ _ (value_sub _ _ _ _ Hu Hk)) as (cu & Hcu & _ & Scu).
  destruct (value_max_0 _ _ (value_sub _ _ _ _ Hd Hk)) as (cd & Hcd & _ & Scd).
  destruct (value_max_0 _ _ (value_sub _ _ _ _ Hk Hu)) as (pu & Hpu & _ & Spu).
  destruct (value_max_0 _ _ (value_sub _ _ _ _ Hk Hd)) as (pd & Hpd & _ & Spd).
  cbn [computeOnePeriod Cu Cd Pu Pd].
  repeat split.
  - exact (one_payoff_is_zero _ _ _ _ _ _ Hcu Hpu Scu Spu).
  - exact (one_payoff_is_zero _ _ _ _ _ _ Hcd Hpd Scd Spd).
  - eapply eq_value; [eapply value_sub; eassumption
                     | eapply value_sub; eassumption |].
    exact (payoff_difference _ _ _ _ Scu Spu).
  - eapply eq_value; [eapply value_sub; eassumption
                     | eapply value_sub; eassumption |].
    exact (payoff_difference _ _ _ _ Scd Spd).
Qed.

Lemma call_and_put_payoffs_witness :
  let calc := computeOnePeriod initialInputs in
  (isZero (Cu calc) || isZero (Pu calc)) = true
  /\ (isZero (Cd calc) || isZero (Pd calc)) = true
  /\ (Cu calc - Pu calc ==? Su initialInputs - K initialInputs) = true
  /\ (Cd calc - Pd calc ==? Sd initialInputs - K initialInputs) = true.
Proof.
  apply (call_and_put_payoffs initialInputs); reflexivity.
Defined.





Lemma div_by_zero_not_finite (a w : number) :
  isZero w = true -> isFinite (a / w) = false.
Proof.
  destruct a as [| |za qa], w as [| |zw qw]; cbn; try discriminate;
    try reflexivity.
  intros ->. destruct (Qeq_bool qa 0); reflexivity.
Qed.

(** With [x] NaN or an infinity and two equal payoffs, [x * a + (1 - x) * b]
    is NaN: an infinity meets the opposite one, or a zero. *)
Lemma infinite_weight_gives_NaN (x a b : number) (qa qb : Q) :
  isFinite x = false ->
  value a = Some qa -> value b = Some qb -> (qa == qb)%Q -> (0 <= qa)%Q ->
  isNaN (x * a + (1 - x) * b) = true.
Proof.
  intros Hx Ha Hb E Hpos.
  destruct x as [|s|]; [reflexivity | | discriminate].
  destruct a as [| |za a]; try discriminate.
  destruct b as [| |zb b]; try discriminate.
  cbn in Ha, Hb. injection Ha as ->. injection Hb as ->.
  unfold JS.sub. cbn.
  destruct (Qeq_bool qa 0) eqn:E1; [reflexivity |].
  destruct (Qeq_bool qb 0) eqn:E2.
  { apply Qeq_bool_iff in E2. apply Qeq_bool_false in E1. exfalso. lra. }
  apply Qeq_bool_false in E1, E2.
  assert (Sa : JS.Qlt_bool qa 0 = false).
  { unfold JS.Qlt_bool. apply negb_false_iff, Qle_bool_iff. lra. }
  assert (Sb : JS.Qlt_bool qb 0 = false).
  { unfold JS.Qlt_bool. apply negb_false_iff, Qle_bool_iff. lra. }
  rewrite Sa, Sb. destruct s; reflexivity.
Qed.

Lemma NaN_quotient (x y : number) : isNaN x = true -> isNaN (x / y) = true.
Proof. destruct x, y; cbn; congruence. Qed.

Lemma sub_equal_isZero (a b : number) :
  isFinite a = true -> isFinite b = true ->
  (a ==? b) = true -> isZero (a - b) = true.
Proof.
  destruct a as [| |za a], b as [| |zb b]; cbn; try discriminate.
  intros _ _ H. apply Qeq_bool_iff in H. apply Qeq_bool_iff. lra.
Qed.

(** X17.  The pricer called on finite inputs with equal up and down states
    divides by zero: [p] is not a finite number and both option values are
    NaN. *)
Theorem equal_states_give_NaN (inputs : PricingInputs) :
  all_finite inputs = true -> (Su inputs ==? Sd inputs) = true ->
  let calc := computeOnePeriod inputs in
  isFinite (p calc) = false
  /\ isNaN (C0 calc) = true /\ isNaN (P0 calc) = true.
Proof.
  intros Hf Heq.
  destruct (all_finite_fields _ Hf) as (F0 & Fu & Fd & Fk & Fr).
  pose proof (sub_equal_isZero _ _ Fu Fd Heq) as Hz.
  apply value_isFinite in Fu as [u Hu], Fd as [d Hd], Fk as [k Hk].
  assert (Eud : (u == d)%Q).
  { destruct (Su inputs) as [| |? ?], (Sd inputs) as [| |? ?];
      try discriminate.
    cbn in Hu, Hd, Heq. injection Hu as <-. injection Hd as <-.
    now apply Qeq_bool_iff. }
  destruct inputs as [xS0 xSu xSd xK xrPct]. cbn [S0 Su Sd K rPct] in *.
  destruct (value_max_0 _ _ (value_sub _ _ _ _ Hu Hk))
    as (cu & Hcu & Pcu & Scu).
  destruct (value_max_0 _ _ (value_sub _ _ _ _ Hd Hk))
    as (cd & Hcd & _ & Scd).
  destruct (value_max_0 _ _ (value_sub _ _ _ _ Hk Hu))
    as (pu & Hpu & Ppu & Spu).
  destruct (value_max_0 _ _ (value_sub _ _ _ _ Hk Hd))
    as (pd & Hpd & _ & Spd).
  assert (Ec : (cu == cd)%Q).
  { destruct Scu as [[? ?]|[? ?]], Scd as [[? ?]|[? ?]]; lra. }
  assert (Ep : (pu == pd)%Q).
  { destruct Spu as [[? ?]|[? ?]], Spd as [[? ?]|[? ?]]; lra. }
  cbn [computeOnePeriod p C0 P0].
  pose proof (div_by_zero_not_finite
                ((1 + xrPct / 100) * xS0 - xSd) _ Hz) as Hp.
  split; [exact Hp |]. split; apply NaN_quotient.
  - exact (infinite_weight_gives_NaN _ _ _ _ _ Hp Hcu Hcd Ec Pcu).
  - exact (infinite_weight_gives_NaN _ _ _ _ _ Hp Hpu Hpd Ep Ppu).
Qed.

Lemma equal_states_give_NaN_witness :
  isNaN (C0 (computeOnePeriod
               {| S0 := 40; Su := 32; Sd := 32; K := 50; rPct := 5 |}))
  = true.
Proof.
  apply (equal_states_give_NaN
           {| S0 := 40; Su := 32; Sd := 32; K := 50; rPct := 5 |});
    reflexivity.
Defined.

(** ** What is rendered from the errors *)

Lemma validateInputs_entries_fired (m : messages) (inputs : PricingInputs) :
  validateInputs_entries m inputs
  = map (fun k => (key_name k, message m k)) (fired_keys inputs).
Proof.
  unfold validateInputs_entries, set_if_entries, fired_keys, all_keys.
  cbn [List.filter check].
  repeat match goal with
  | |- context [if ?c then _ else _] => destruct c
  end; reflexivity.
Qed.

Lemma fired_keys_names_NoDup (inputs : PricingInputs) :
  NoDup (map key_name (fired_keys inputs)).
Proof.
  unfold fired_keys, all_keys. cbn [List.filter].
  repeat match goal with
  | |- context [if ?c then _ else _] => destruct c
  end; apply (bool_decide_unpack _); vm_compute; exact I.
Qed.

Lemma fired_keys_map (m : messages) (inputs : PricingInputs) :
  list_to_map (map (fun k => (key_name k, message m k)) (fired_keys inputs))
  = validateInputs m inputs.
Proof.
  unfold validateInputs, set_if, fired_keys, all_keys.
  cbn [List.filter check].
  repeat match goal with
  | |- context [if ?c then _ else _] => destruct c
  end; reflexivity.
Qed.

(** X18.  The entries of the error object, in the order the source language
    keeps them: one entry per rule that fires, in the order of the rules
    ([S0], [Su], [Sd], [K], [rPct], [upDown], [currentPrice]), no key
    twice; they are the entries of the finite map the validator is modelled
    by. *)
Theorem entries_in_rule_order (m : messages) (inputs : PricingInputs) :
  validateInputs_entries m inputs
  = map (fun k => (key_name k, message m k)) (fired_keys inputs)
  /\ NoDup (map fst (validateInputs_entries m inputs))
  /\ list_to_map (validateInputs_entries m inputs) = validateInputs m inputs.
Proof.
  rewrite validateInputs_entries_fired. split; [reflexivity |]. split.
  - rewrite map_map. cbn [fst]. apply fired_keys_names_NoDup.
  - apply fired_keys_map.
Qed.

Lemma calc_fired (m : messages) (inputs : PricingInputs) :
  calc m inputs
  = match fired_keys inputs with
    | [] => Some (computeOnePeriod inputs)
    | _ :: _ => None
    end.
Proof.
  unfold calc. cbv zeta. rewrite validateInputs_size.
  destruct (fired_keys inputs); reflexivity.
Qed.

(** X19.  The error box and the results never show together, and one of
    them always shows: [ValidationMessage] renders nothing exactly when
    [calc] holds a result.  When it renders, there is one item per key of
    the error object, in the order of the rules, each the bullet and the
    message, and the keys given to the items are pairwise distinct. *)
Theorem error_box_or_results (m : messages) (inputs : PricingInputs) :
  let box := ValidationMessage (Some (validateInputs_entries m inputs)) in
  (box = None <-> is_Some (calc m inputs))
  /\ (forall items, box = Some items ->
        calc m inputs = None
        /\ length items = keys_length (validateInputs m inputs)
        /\ map item_key items = map key_name (fired_keys inputs)
        /\ map item_text items
           = map (fun k => String.append "• " (message m k))
               (fired_keys inputs)
        /\ NoDup (map item_key items)).
Proof.
  cbv zeta. unfold ValidationMessage.
  rewrite validateInputs_entries_fired, calc_fired, validateInputs_size.
  pose proof (fired_keys_names_NoDup inputs) as Hnd.
  destruct (fired_keys inputs) as [|k ks] eqn:E.
  - split; [split; eauto | intros items H; discriminate].
  - cbn [map length Nat.eqb]. split.
    + split; [discriminate | intros [x Hx]; discriminate].
    + intros items [= <-]. cbn [map length item_key item_text fst snd].
      rewrite !length_map, !map_map. cbn [item_key item_text fst snd].
      repeat split; try reflexivity. exact Hnd.
Qed.

Lemma error_box_or_results_witness :
  let inputs := {| S0 := 40; Su := 30; Sd := 0; K := 50; rPct := 5 |} in
  calc messages_App inputs = None.
Proof.
  cbv zeta.
  eapply (proj2 (error_box_or_results messages_App
            {| S0 := 40; Su := 30; Sd := 0; K := 50; rPct := 5 |})).
  reflexivity.
Defined.

Lemma truthy_message_lookup
    (m : messages) (inputs : PricingInputs) (k : key) :
  message m k <> EmptyString ->
  truthy_message (validateInputs m inputs !! key_name k) = check k inputs.
Proof.
  intros Hne. rewrite validateInputs_lookup.
  destruct (check k inputs); [|reflexivity].
  cbn. destruct (message m k); [contradiction | reflexivity].
Qed.

(** X20.  With message texts that are not empty, as those of both source
    files are: the input of a field is marked invalid ([aria-invalid] in
    one file, the red border in the other) exactly when the rule of that
    field fires, and [aria-describedby] names the error element exactly
    when [FormField] renders it.  The errors [upDown] and [currentPrice]
    mark no field: when [currentPrice] is the only kind of error, no result
    shows and no input is marked. *)
Theorem field_marking (m : messages) (inputs : PricingInputs) :
  (forall k, message m k <> EmptyString) ->
  let errors := validateInputs m inputs in
  (forall f,
     aria_invalid errors f
     = (if check (field_key f) inputs then "true" else "false")
     /\ border_class errors f
        = (if check (field_key f) inputs then "border-red-300"
           else "border-gray-300")
     /\ aria_describedby errors f
        = fst <$> FormField_error (key_name (field_key f))
                    (errors !! key_name (field_key f)))
  /\ (has_key kcurrentPrice errors ->
      ~ has_key kK errors -> ~ has_key krPct errors ->
      calc m inputs = None /\ forall f, aria_invalid errors f = "false").
Proof.
  intros Hne errors. subst errors. split.
  - intros f. unfold aria_invalid, border_class, aria_describedby.
    rewrite truthy_message_lookup by apply Hne.
    repeat split.
    rewrite validateInputs_lookup.
    destruct (check (field_key f) inputs); [|reflexivity].
    unfold FormField_error. pose proof (Hne (field_key f)) as Hm.
    destruct (message m (field_key f)); [contradiction | reflexivity].
  - rewrite !has_key_check. intros Hcp HK Hr.
    destruct (order_checks_exclude inputs) as [_ Hx].
    destruct (Hx Hcp) as (E1 & E2 & E3).
    split.
    + rewrite calc_fired. unfold fired_keys, all_keys. cbn [List.filter].
      rewrite Hcp.
      destruct (check kS0 inputs), (check kSu inputs), (check kSd inputs),
        (check kK inputs), (check krPct inputs), (check kupDown inputs);
        reflexivity.
    + intros f. unfold aria_invalid.
      rewrite truthy_message_lookup by apply Hne.
      destruct f; cbn [field_key]; rewrite ?E1, ?E2, ?E3; try reflexivity.
      * destruct (check kK inputs); [contradiction | reflexivity].
      * destruct (check krPct inputs); [contradiction | reflexivity].
Qed.

Lemma messages_App_not_empty (k : key) : message messages_App k <> EmptyString.
Proof. destruct k; discriminate. Qed.

Lemma messages_part_000_not_empty (k : key) :
  message messages_part_000 k <> EmptyString.
Proof. destruct k; discriminate. Qed.

Lemma field_marking_witness :
  let inputs := {| S0 := 60; Su := 56; Sd := 32; K := 50; rPct := 5 |} in
  calc messages_App inputs = None
  /\ forall f, aria_invalid (validateInputs messages_App inputs) f = "false".
Proof.
  cbv zeta.
  apply (proj2 (field_marking messages_App
    {| S0 := 60; Su := 56; Sd := 32; K := 50; rPct := 5 |}
    messages_App_not_empty)).
  - apply has_key_check. reflexivity.
  - rewrite has_key_check. discriminate.
  - rewrite has_key_check. discriminate.
Defined.

(** ** The dots of the charts *)

(** X21.  On each of the three series of a result, with finite coordinates:
    [makeLabeledDot] draws nothing on the two spacers and a labelled dot on
    the points [t = 0] and [t = 1], at the coordinates it is given, with
    the label 6 to the right and 18 above at [t = 0], 8 above at [t = 1],
    and the formatted value of its channel as text. *)
Theorem dots_of_series
    (toFixed2 : number -> string) (key : channel) (color : string)
    (m : messages) (inputs : PricingInputs) (result : PricingResult)
    (series : list point) (n : nat) (row : point) (x y : number) :
  calc m inputs = Some result ->
  isFinite x = true -> isFinite y = true ->
  series ∈ [assetData (calc m inputs) inputs;
            callData (calc m inputs); putData (calc m inputs)] ->
  series !! n = Some row ->
  let dot :=
    makeLabeledDot toFixed2 key color
      {| cx := Some x; cy := Some y; payload := Some row |} in
  match n with
  | 1%nat | 2%nat =>
      exists v,
        match key with chUp => Up row | chDown => Down row end = Some v
        /\ dot = Some {| circle_cx := x; circle_cy := y; circle_r := 4;
                         circle_fill := color;
                         text_x := x + 6;
                         text_y := if (n =? 1)%nat then y - 18 else y - 8;
                         text_fill := color;
                         text_content := toFixed2 v |}
  | _ => dot = None
  end.
Proof.
  intros -> Hx Hy Hs Hrow dot. subst dot.
  unfold makeLabeledDot. cbn [payload cx cy].
  rewrite Hx, Hy. cbn [negb orb].
  apply elem_of_cons in Hs as [-> | Hs];
    [| apply elem_of_cons in Hs as [-> | Hs];
       [| apply list_elem_of_singleton in Hs as ->]].
  all: destruct n as [|[|[|[|n]]]]; cbn in Hrow; try discriminate;
    injection Hrow as <-; cbn; try reflexivity.
  all: destruct key; eexists; split; reflexivity.
Qed.

Lemma dots_of_series_witness :
  makeLabeledDot (fun _ => "2.38") chUp "#059669"
    {| cx := Some (num 10); cy := Some (num 20);
       payload := Some {| t := " "; Up := None; Down := None |} |}
  = None.
Proof.
  apply (dots_of_series (fun _ => "2.38") chUp "#059669" messages_App
           initialInputs (computeOnePeriod initialInputs)
           (callData (calc messages_App initialInputs)) 0%nat
           {| t := " "; Up := None; Down := None |} (num 10) (num 20));
    try reflexivity.
  apply elem_of_cons. right. apply elem_of_cons. left. reflexivity.
Defined.

(** ** From the form to the results *)

(** The payoffs of an accepted input in order: the call pays at least as
    much in the up state, the put in the down state. *)
Lemma payoffs_order (u d k cu cd pu pd : Q) :
  (d < u)%Q ->
  is_max_0 (u - k) cu -> is_max_0 (d - k) cd ->
  is_max_0 (k - u) pu -> is_max_0 (k - d) pd ->
  (0 <= cd /\ cd <= cu /\ 0 <= pu /\ pu <= pd)%Q.
Proof.
  intros Hud [[? ?]|[? ?]] [[? ?]|[? ?]] [[? ?]|[? ?]] [[? ?]|[? ?]];
    repeat split; lra.
Qed.

(** X22.  From the initial state, whatever is typed: when the form shows a
    result, it is [computeOnePeriod] of a state of five finite numbers that
    the validator accepts, so that neither divisor of the pricer is zero,
    and its four payoffs are finite numbers in order:
    [Cu >= Cd >= 0] and [Pd >= Pu >= 0]. *)
Theorem shown_results_are_sound
    (m : messages) (edits : list (field * number)) (result : PricingResult) :
  let st := run_edits edits initialInputs in
  calc m st = Some result ->
  result = computeOnePeriod st
  /\ all_finite st = true /\ accepted st = true
  /\ isZero (Su st - Sd st) = false /\ isZero (1 + rPct st / 100) = false
  /\ isFinite (Cu result) = true /\ isFinite (Cd result) = true
  /\ isFinite (Pu result) = true /\ isFinite (Pd result) = true
  /\ (Cd result >=? 0) = true /\ (Cu result >=? Cd result) = true
  /\ (Pu result >=? 0) = true /\ (Pd result >=? Pu result) = true.
Proof.
  intros st Hc.
  assert (Hf : all_finite st = true).
  { apply run_edits_finite_aux. reflexivity. }
  apply calc_Some_accepted in Hc as [-> Ha].
  destruct (accepted_divisors st Ha) as [Z1 Z2].
  destruct (accepted_rational_view st Hf Ha).
  destruct (payoffs_order u d k cu cd pu pd ltac:(lra) Mcu Mcd Mpu Mpd)
    as (O1 & O2 & O3 & O4).
  unfold JS.ge.
  rewrite (le_value _ _ _ _ (value_num 0) HCd), (le_value _ _ _ _ HCd HCu).
  rewrite (le_value _ _ _ _ (value_num 0) HPu), (le_value _ _ _ _ HPu HPd).
  repeat split; try assumption; try reflexivity;
    first [ apply value_isFinite; eauto | now apply Qle_bool_iff ].
Qed.

Lemma shown_results_are_sound_witness :
  let st := run_edits [(fK, num 45); (frPct, NaN)] initialInputs in
  (Cu (computeOnePeriod st) >=? Cd (computeOnePeriod st)) = true
  /\ (Pd (computeOnePeriod st) >=? Pu (computeOnePeriod st)) = true.
Proof.
  cbv zeta.
  pose proof (shown_results_are_sound messages_App
                [(fK, num 45); (frPct, NaN)]
                (computeOnePeriod
                   (run_edits [(fK, num 45); (frPct, NaN)] initialInputs))
                eq_refl) as H.
  split; [apply H | apply H].
Defined.

Lemma check_after_edit
    (f : field) (x : number) (st : PricingInputs) (k : key) :
  (f = fK \/ f = frPct) -> k <> field_key f ->
  check k (handleInputChange f x st) = check k st.
Proof.
  intros [-> | ->] Hk; destruct k; try reflexivity; now destruct Hk.
Qed.

(** X23.  An edit of the strike or of the rate changes nothing but its own
    error: every other key is in the error object after the edit exactly
    when it was before. *)
Theorem strike_and_rate_edits_are_local
    (m : messages) (f : field) (x : number) (st : PricingInputs) (k : key) :
  f = fK \/ f = frPct -> k <> field_key f ->
  has_key k (validateInputs m (handleInputChange f x st))
  <-> has_key k (validateInputs m st).
Proof.
  intros Hf Hk. rewrite !has_key_check.
  now rewrite check_after_edit.
Qed.

Lemma strike_and_rate_edits_are_local_witness :
  has_key kupDown
    (validateInputs messages_App
       (handleInputChange fK (num (-3))
          {| S0 := 40; Su := 30; Sd := 32; K := 50; rPct := 5 |})).
Proof.
  apply (strike_and_rate_edits_are_local messages_App fK (num (-3))
           {| S0 := 40; Su := 30; Sd := 32; K := 50; rPct := 5 |} kupDown).
  - left. reflexivity.
  - discriminate.
  - apply has_key_check. reflexivity.
Defined.




